(** * pysub: SubRip streams, shifting, sequence checking and synchronization

    A shallow embedding of [pysub/pysub.py] (Python 2) and the properties
    of its functions.  Python values are modelled as follows.

    - [int]/[long] are [Z]; [float] is the binary64 type [float] of the
      kernel, with Python's [ZeroDivisionError] on a zero divisor written out.
    - [unicode] strings are [string]; a character is its code point, kept
      below 256 (the Latin-1 block, which holds every character named by the
      source).
    - [datetime.datetime] is the number of microseconds since
      0001-01-01T00:00:00 ([datetime.min]); [datetime.timedelta] is a number
      of microseconds.
    - a raised exception is the [Raise] branch of [result]. *)

From Stdlib Require Import ZArith List String Ascii Bool Lia Floats.
Import ListNotations.
Open Scope Z_scope.

(** The weights [.3] and [.2] of the confidence are read as Python reads
    them, as the nearest binary64 values. *)
Set Warnings "-inexact-float".

(** ** Python runtime: exceptions, sequences, numbers *)

Module Py.

Inductive exn : Type :=
| IndexError
| ZeroDivisionError
| AttributeError
| OverflowError
| ValueError
| UnboundLocalError
| SRTParseException (msg : string)
| Exception (msg : string).

Inductive result (A : Type) : Type :=
| Ok (a : A)
| Raise (e : exn).
Arguments Ok {A} a.
Arguments Raise {A} e.

Definition bind {A B} (m : result A) (k : A -> result B) : result B :=
  match m with
  | Ok a => k a
  | Raise e => Raise e
  end.

(** [for x in l: acc = body(acc, x)], stopping at the first exception. *)
Fixpoint for_each {A S} (body : S -> A -> result S) (l : list A) (acc : S)
  : result S :=
  match l with
  | [] => Ok acc
  | x :: tl => bind (body acc x) (for_each body tl)
  end.

(** [[f(x) for x in l]] for an [f] that may raise. *)
Fixpoint map_m {A B} (f : A -> result B) (l : list A) : result (list B) :=
  match l with
  | [] => Ok []
  | x :: tl =>
      bind (f x) (fun y => bind (map_m f tl) (fun ys => Ok (y :: ys)))
  end.

Definition len {A} (l : list A) : Z := Z.of_nat (List.length l).

(** [l[k]] for an integer [k]: a negative index counts from the end. *)
Definition getitem {A} (l : list A) (k : Z) : result A :=
  let k' := if k <? 0 then k + len l else k in
  if (k' <? 0) || (len l <=? k') then Raise IndexError
  else match nth_error l (Z.to_nat k') with
       | Some x => Ok x
       | None => Raise IndexError
       end.

(** The bound of a slice, as [PySlice_GetIndicesEx] adjusts it for step 1. *)
Definition clamp_index (n k : Z) : Z :=
  let k' := if k <? 0 then k + n else k in
  if k' <? 0 then 0 else if n <? k' then n else k'.

(** [l[lo:hi]]. *)
Definition getslice {A} (l : list A) (lo hi : Z) : list A :=
  let a := clamp_index (len l) lo in
  let b := clamp_index (len l) hi in
  firstn (Z.to_nat (b - a)) (skipn (Z.to_nat a) l).

(** A number passed where the source takes an [int] or a [float]. *)
Inductive num : Type :=
| PInt (z : Z)
| PFloat (x : float).

(** [float(z)], correctly rounded. *)
Definition float_of_int (z : Z) : float :=
  SF2Prim (binary_normalize prec emax z 0 false).

Definition to_float (n : num) : float :=
  match n with
  | PInt z => float_of_int z
  | PFloat x => x
  end.

(** [abs(n)]. *)
Definition num_abs (n : num) : num :=
  match n with
  | PInt z => PInt (Z.abs z)
  | PFloat x => PFloat (PrimFloat.abs x)
  end.

(** [-n]. *)
Definition num_neg (n : num) : num :=
  match n with
  | PInt z => PInt (- z)
  | PFloat x => PFloat (PrimFloat.opp x)
  end.

(** [n < 0]. *)
Definition num_ltb0 (n : num) : bool :=
  match n with
  | PInt z => z <? 0
  | PFloat x => PrimFloat.ltb x 0%float
  end.

(** [x / y] on floats: Python raises on a zero divisor of either sign. *)
Definition fdiv (x y : float) : result float :=
  if PrimFloat.eqb y 0%float then Raise ZeroDivisionError
  else Ok (PrimFloat.div x y).

(** [min(l)]: the first least element; [ValueError] on an empty list. *)
Definition fmin (l : list float) : result float :=
  match l with
  | [] => Raise ValueError
  | x :: tl =>
      Ok (fold_left (fun m y => if PrimFloat.ltb y m then y else m) tl x)
  end.

End Py.

Import Py.

Notation "x <- m ;; k" := (Py.bind m (fun x => k))
  (at level 61, m at next level, right associativity).

(** ** [datetime] *)

Module Datetime.

(** Microseconds since [datetime.min]. *)
Definition t : Type := Z.

Definition hour_us : Z := 60 * 60 * 1000000.
Definition minute_us : Z := 60 * 1000000.
Definition second_us : Z := 1000000.
Definition day_us : Z := 24 * hour_us.

(** [datetime.max] is 9999-12-31T23:59:59.999999, the last microsecond of
    the day of ordinal 3652059. *)
Definition max_us : Z := 3652059 * day_us - 1.

Definition valid (d : t) : Prop := 0 <= d <= max_us.

Definition hour (d : t) : Z := (d mod day_us) / hour_us.
Definition minute (d : t) : Z := (d mod hour_us) / minute_us.
Definition second (d : t) : Z := (d mod minute_us) / second_us.
Definition microsecond (d : t) : Z := d mod second_us.

(** [date(1900,1,1).toordinal()]. *)
Definition ordinal_1900_01_01 : Z := 693596.

(** An integer that the constructor can read as a C [int]. *)
Definition fits_c_int (z : Z) : bool :=
  (-2147483648 <=? z) && (z <=? 2147483647).

(** [datetime.datetime(1900, 1, 1, h, m, s, us)].  The four arguments are
    first read as C [int]s, with [OverflowError] for one that does not
    fit, and then checked against their ranges, with [ValueError]. *)
Definition make_1900 (h m s us : Z) : result t :=
  if negb (fits_c_int h && fits_c_int m && fits_c_int s && fits_c_int us)
  then Raise OverflowError
  else if (0 <=? h) && (h <? 24) && (0 <=? m) && (m <? 60)
          && (0 <=? s) && (s <? 60) && (0 <=? us) && (us <? 1000000)
  then Ok ((ordinal_1900_01_01 - 1) * day_us
           + h * hour_us + m * minute_us + s * second_us + us)
  else Raise ValueError.

(** A [timedelta], in microseconds. *)
Definition timedelta : Type := Z.

(** [timedelta.max.days]. *)
Definition max_delta_days : Z := 999999999.

(** The integer and fractional parts of a non-negative finite float, as C's
    [modf] gives them. *)
Definition modf (x : float) : result (Z * float) :=
  match Prim2SF x with
  | S754_zero _ => Ok (0, 0%float)
  | S754_finite s m e =>
      if 0 <=? e
      then Ok ((if s then -1 else 1) * (Z.pos m * 2 ^ e), 0%float)
      else
        let ip := (if s then -1 else 1) * (Z.pos m / 2 ^ (- e)) in
        Ok (ip, PrimFloat.sub x (float_of_int ip))
  | S754_infinity _ => Raise OverflowError
  | S754_nan => Raise ValueError
  end.

(** [datetime.timedelta(microseconds=n)] for [n >= 0].  A float is split
    by [modf] and its fractional part rounded by [floor(frac + 0.5)]. *)
Definition timedelta_microseconds (n : num) : result timedelta :=
  us <- match n with
        | PInt z => Ok z
        | PFloat x =>
            p <- modf x ;;
            let (ip, frac) := p : Z * float in
            if PrimFloat.eqb frac 0%float then Ok ip
            else if PrimFloat.ltb (PrimFloat.add frac 0.5%float) 1%float
                 then Ok ip else Ok (ip + 1)
        end ;;
  if max_delta_days <? us / day_us then Raise OverflowError else Ok us.

Definition checked (d : Z) : result t :=
  if (0 <=? d) && (d <=? max_us) then Ok d else Raise OverflowError.

(** [d + delta] and [d - delta]. *)
Definition add (d : t) (delta : timedelta) : result t := checked (d + delta).
Definition sub (d : t) (delta : timedelta) : result t := checked (d - delta).

End Datetime.

(** [_u(t)]: the time of day in microseconds. *)
Definition _u (t : Datetime.t) : Z :=
  Datetime.hour t * 60 * 60 * 1000000
  + Datetime.minute t * 60 * 1000000
  + Datetime.second t * 1000000
  + Datetime.microsecond t.

(** ** [Fragment] *)

(** The four attributes set by [Fragment.__init__]; the read-only properties
    [seqnumber], [starttime], [endtime] and [textlines] return them. *)
Record Fragment : Type := mkFragment {
  seqnumber : Z;
  starttime : Datetime.t;
  endtime : Datetime.t;
  textlines : list string
}.

Module FragmentM.

(** [Fragment.shift]. *)
Definition shift (self : Fragment) (microseconds : num) : result Fragment :=
  delta <- Datetime.timedelta_microseconds (num_abs microseconds) ;;
  if num_ltb0 microseconds then
    s <- Datetime.sub (starttime self) delta ;;
    e <- Datetime.sub (endtime self) delta ;;
    Ok (mkFragment (seqnumber self) s e (textlines self))
  else
    s <- Datetime.add (starttime self) delta ;;
    e <- Datetime.add (endtime self) delta ;;
    Ok (mkFragment (seqnumber self) s e (textlines self)).

(** [Fragment.duration]. *)
Definition duration (self : Fragment) : Z :=
  let endmcs := _u (endtime self) in
  let startmcs := _u (starttime self) in
  endmcs - startmcs.

(** [Fragment.text]: the lines joined by a newline. *)
Definition text (self : Fragment) : string :=
  String.concat (String (ascii_of_nat 10) EmptyString) (textlines self).

(** [f.seqnumber = i].  The class declares [seqnumber] with [@property]
    and no setter, and derives from [object]: the assignment raises. *)
Definition set_seqnumber (self : Fragment) (i : Z) : result Fragment :=
  Raise AttributeError.

Definition valid (self : Fragment) : Prop :=
  Datetime.valid (starttime self) /\ Datetime.valid (endtime self).

End FragmentM.

(** ** [SubtitleStream]: the list [_fragments] *)

Definition SubtitleStream : Type := list Fragment.

Module Stream.

(** [SubtitleStream.shift]. *)
Definition shift (self : SubtitleStream) (microseconds : num)
  : result SubtitleStream :=
  map_m (fun f => FragmentM.shift f microseconds) self.

(** [SubtitleStream.shift_to_zero]. *)
Definition shift_to_zero (self : SubtitleStream) : result SubtitleStream :=
  first <- getitem self 0 ;;
  shift self (PInt (- _u (starttime first))).

End Stream.


(** ** [normalize] *)

Module Normalize.

Open Scope char_scope.

Definition code (c : ascii) : N := N_of_ascii c.

Definition in_range (lo hi : N) (c : ascii) : bool :=
  ((lo <=? code c) && (code c <=? hi))%N.

(** [c.lower()] on the Latin-1 block: A-Z, and U+00C0..U+00DE but for the
    multiplication sign U+00D7, move up by 32. *)
Definition lower_char (c : ascii) : ascii :=
  if in_range 65 90 c
     || (in_range 192 222 c && negb (code c =? 215)%N)
  then ascii_of_N (code c + 32)
  else c.

(** [simplification_table.get(c, False) or c]. *)
Definition simplify_char (c : ascii) : ascii :=
  match code c with
  | 225%N => "a"
  | 233%N => "e"
  | 237%N => "i"
  | 243%N => "o"
  | 250%N => "u"
  | 252%N => "u"
  | _ => c
  end.

Fixpoint map_string (f : ascii -> ascii) (s : string) : string :=
  match s with
  | EmptyString => EmptyString
  | String c tl => String (f c) (map_string f tl)
  end.

(** [\w] with neither [re.UNICODE] nor [re.LOCALE]: [[a-zA-Z0-9_]]. *)
Definition is_word (c : ascii) : bool :=
  in_range 48 57 c || in_range 65 90 c || (code c =? 95)%N
  || in_range 97 122 c.

Definition n_tilde : ascii := ascii_of_N 241.
Definition newline : ascii := ascii_of_N 10.

(** The class [[^\wñ]]. *)
Definition is_noise (c : ascii) : bool :=
  negb (is_word c) && negb (code c =? 241)%N.

(** [.+?>] after the first character of the [.+?]: the lazy quantifier
    stops at the first [>], and [.] does not match a newline.  Returns
    what follows the match. *)
Fixpoint tag_rest (s : string) : option string :=
  match s with
  | EmptyString => None
  | String c tl =>
      if (code c =? 62)%N then Some tl
      else if (code c =? 10)%N then None
      else tag_rest tl
  end.

(** [<.+?>] at the start of [s]. *)
Definition match_tag (s : string) : option string :=
  match s with
  | String lt (String c1 tl) =>
      if (code lt =? 60)%N && negb (code c1 =? 10)%N then tag_rest tl
      else None
  | _ => None
  end.

(** What is left of [s] after its longest prefix of noise characters. *)
Fixpoint drop_noise (s : string) : string :=
  match s with
  | EmptyString => EmptyString
  | String c tl => if is_noise c then drop_noise tl else s
  end.

(** [[^\wñ]+] at the start of [s] (greedy). *)
Definition match_noise (s : string) : option string :=
  match s with
  | String c tl => if is_noise c then Some (drop_noise tl) else None
  | EmptyString => None
  end.

(** The pattern [<.+?>|[^\wñ]+] at the start of [s]: the first
    alternative that matches wins. *)
Definition match_at (s : string) : option string :=
  match match_tag s with
  | Some rest => Some rest
  | None => match_noise s
  end.

(** [re.sub(pattern, ' ', s)]: left to right, each match replaced by one
    space, the scan resuming where the match ended.  A match is never
    empty, so [fuel = len(s)] steps are enough. *)
Fixpoint sub_loop (fuel : nat) (s : string) : string :=
  match fuel with
  | O => EmptyString
  | S n =>
      match s with
      | EmptyString => EmptyString
      | String c tl =>
          match match_at s with
          | Some rest => String " " (sub_loop n rest)
          | None => String c (sub_loop n tl)
          end
      end
  end.

Definition re_sub (s : string) : string := sub_loop (String.length s) s.

(** [normalize(line)]. *)
Definition normalize (line : string) : string :=
  let line := map_string lower_char line in
  let line := map_string simplify_char line in
  let line := re_sub line in
  line.

End Normalize.

(** ** [SubtitleStream.check_sequence] *)

Module CheckSequence.

(** An entry of [wrong_labeled]: the fragment object, given by its position
    in [_fragments], its sequence number when it was examined, and the
    expected one. *)
Definition mismatch : Type := nat * Z * Z.

(** The [for i, f in enumerate(self._fragments, 1)] loop.  [seen] holds the
    objects already visited, in the state the loop left them in; the result
    pairs the objects of the stream after the call with its outcome. *)
Fixpoint loop (repair : bool) (i : Z) (seen todo : list Fragment)
  (wrong_labeled : list mismatch)
  : SubtitleStream * result (list mismatch) :=
  match todo with
  | [] => (seen, Ok wrong_labeled)
  | f :: tl =>
      if negb (seqnumber f =? i) then
        let wrong_labeled :=
          wrong_labeled ++ [(List.length seen, seqnumber f, i)] in
        if repair then
          match FragmentM.set_seqnumber f i with
          | Ok f' => loop repair (i + 1) (seen ++ [f']) tl wrong_labeled
          | Raise e => (seen ++ f :: tl, Raise e)
          end
        else loop repair (i + 1) (seen ++ [f]) tl wrong_labeled
      else loop repair (i + 1) (seen ++ [f]) tl wrong_labeled
  end.

Definition check_sequence (self : SubtitleStream) (repair : bool)
  : SubtitleStream * result (list mismatch) :=
  loop repair 1 [] self [].

(** The positions whose stored number differs from the 1-based position. *)
Fixpoint mismatches (pos : nat) (l : list Fragment) : list mismatch :=
  match l with
  | [] => []
  | f :: tl =>
      let i := Z.of_nat pos + 1 in
      if seqnumber f =? i then mismatches (S pos) tl
      else (pos, seqnumber f, i) :: mismatches (S pos) tl
  end.

End CheckSequence.

(** ** [SubtitleStream.synchronize] *)

Module Sync.

(** What [get_paraphrases(a, b)] yields as [stats['lcsr']]. *)
Definition oracle : Type := string -> string -> list float.

(** A triple of the result: reference fragment, match, confidence. *)
Definition triple : Type := Fragment * Fragment * num.

(** [build_delay_function(totaldelay, duration)]. *)
Definition build_delay_function (totaldelay duration : Z)
  : Fragment -> result float :=
  fun x =>
    fdiv (PrimFloat.mul (float_of_int (_u (starttime x)))
                        (float_of_int totaldelay))
         (float_of_int duration).

(** [confidence > best_confidence], where [best_confidence] starts as the
    integer [0]. *)
Definition gt_best (confidence : float) (best_confidence : num) : bool :=
  PrimFloat.ltb (to_float best_confidence) confidence.

Section WithOracle.

Variable get_paraphrases : oracle.

(** The body of the loop of [select_closest] up to [confidence]. *)
Definition confidence_of (ref : Fragment) (interval : float)
  (f : Fragment) : result float :=
  let stats :=
    get_paraphrases (Normalize.normalize (FragmentM.text ref))
                    (Normalize.normalize (FragmentM.text f)) in
  lcsr <- fmin stats ;;
  let lcsr_score := lcsr in
  let time := Z.abs (_u (starttime ref) - _u (starttime f)) in
  q <- fdiv (float_of_int time) interval ;;
  let time_score := PrimFloat.sub (float_of_int 1) q in
  let overlap :=
    Z.min (_u (endtime ref)) (_u (endtime f))
    - Z.max (_u (starttime ref)) (_u (starttime f)) in
  overlap_score <-
    (if 0 <? overlap
     then fdiv (float_of_int overlap)
               (float_of_int (FragmentM.duration ref))
     else Ok (float_of_int 0)) ;;
  Ok (0.5 * time_score + 0.3 * lcsr_score + 0.2 * overlap_score)%float.

(** [select_closest(ref, options)]. *)
Definition select_closest (ref : Fragment) (options : list Fragment)
  : result (Fragment * num) :=
  best_choice <- getitem options 0 ;;
  let best_confidence := PInt 0 in
  last <- getitem options (-1) ;;
  first <- getitem options 0 ;;
  let interval :=
    float_of_int (_u (starttime last) - _u (starttime first)) in
  for_each
    (fun (best : Fragment * num) f =>
       confidence <- confidence_of ref interval f ;;
       if gt_best confidence (snd best) then Ok (f, PFloat confidence)
       else Ok best)
    options (best_choice, best_confidence).

(** [while j < len(fixed)-1 and fixed[j].starttime < fragment.starttime:
    j += 1]; [fuel] bounds the iterations. *)
Fixpoint scan (fuel : nat) (fixed : SubtitleStream) (fragment : Fragment)
  (j : Z) : result Z :=
  match fuel with
  | O => Ok j
  | S n =>
      if j <? len fixed - 1 then
        fj <- getitem fixed j ;;
        if starttime fj <? starttime fragment
        then scan n fixed fragment (j + 1)
        else Ok j
      else Ok j
  end.

(** The candidates of [fragment] in the corrected stream [fixed]: the
    cursor [j] and [fixed[max(0,j-1):min(len(fixed),j+2)]]. *)
Definition window (fixed : SubtitleStream) (fragment : Fragment)
  : result (Z * list Fragment) :=
  j <- scan (List.length fixed) fixed fragment 0 ;;
  Ok (j, getslice fixed (Z.max 0 (j - 1)) (Z.min (len fixed) (j + 2))).

(** The body of [for fragment in reference]. *)
Definition match_fragment (delayed : SubtitleStream)
  (d : Fragment -> result float) (result_ : list triple)
  (fragment : Fragment) : result (list triple) :=
  expecteddelay <- d fragment ;;
  fixed <- Stream.shift delayed (num_neg (PFloat expecteddelay)) ;;
  w <- window fixed fragment ;;
  let candidates := snd w in
  p <- select_closest fragment candidates ;;
  Ok (result_ ++ [(fragment, fst p, snd p)]).

(** [SubtitleStream._synchronize(reference, delayed, d)]. *)
Definition _synchronize (reference delayed : SubtitleStream)
  (d : Fragment -> result float) : result (list triple) :=
  if len reference =? 0 then Ok []
  else for_each (match_fragment delayed d) reference [].

End WithOracle.

(** The first half of [synchronize]: the roles of the two streams and the
    delay function. *)
Definition partial_synchronization (sstream1 sstream2 : SubtitleStream)
  : result (SubtitleStream * SubtitleStream * (Fragment -> result float)) :=
  last1 <- getitem sstream1 (-1) ;;
  last2 <- getitem sstream2 (-1) ;;
  let totaldelay := _u (starttime last1) - _u (starttime last2) in
  let roles :=
    if totaldelay <? 0 then (sstream1, sstream2)
    else (sstream2, sstream1) in
  let reference := fst roles in
  let delayed := snd roles in
  lastr <- getitem reference (-1) ;;
  let duration := _u (starttime lastr) in
  let f := build_delay_function (Z.abs totaldelay) duration in
  Ok (reference, delayed, f).

(** [SubtitleStream.synchronize(sstream1, sstream2)]; the oracle is [None]
    when the import of [pyraphrase] failed. *)
Definition synchronize (get_paraphrases : option oracle)
  (sstream1 sstream2 : SubtitleStream) : result (list triple) :=
  match get_paraphrases with
  | None =>
      Raise (Exception
        "pyraphrase module should be in the PYTHONPATH to use this functionallity")
  | Some gp =>
      r <- partial_synchronization sstream1 sstream2 ;;
      _synchronize gp (fst (fst r)) (snd (fst r)) (snd r)
  end.

End Sync.

(** ** [SubtitleStream._parse] *)

Module Parse.

(** [Py_UNICODE_ISSPACE] below 256. *)
Definition is_space (c : ascii) : bool :=
  Normalize.in_range 9 13 c || Normalize.in_range 28 32 c
  || (Normalize.code c =? 133)%N || (Normalize.code c =? 160)%N.

Fixpoint lstrip (s : string) : string :=
  match s with
  | String c tl => if is_space c then lstrip tl else s
  | EmptyString => EmptyString
  end.

(** Removes trailing white space. *)
Fixpoint rstrip (s : string) : string :=
  match s with
  | String c tl =>
      match rstrip tl with
      | EmptyString => if is_space c then EmptyString else String c EmptyString
      | tl' => String c tl'
      end
  | EmptyString => EmptyString
  end.

(** [s.strip()]. *)
Definition strip (s : string) : string := rstrip (lstrip s).

(** [s.split(sep)] for a non-empty [sep]; [cur] is the piece being read, and
    [fuel] bounds the characters left. *)
Fixpoint split_loop (fuel : nat) (sep s cur : string) : list string :=
  match fuel with
  | O => [cur]
  | S n =>
      match s with
      | EmptyString => [cur]
      | String c tl =>
          if String.prefix sep s
          then cur :: split_loop n sep
                        (String.substring (String.length sep)
                           (String.length s - String.length sep) s)
                        EmptyString
          else split_loop n sep tl (cur ++ String c EmptyString)%string
      end
  end.

Definition split (s sep : string) : list string :=
  split_loop (S (String.length s)) sep s EmptyString.

(** [re.split(ur'[:,]', s)]. *)
Fixpoint re_split_colon_comma (s cur : string) : list string :=
  match s with
  | EmptyString => [cur]
  | String c tl =>
      if (Normalize.code c =? 58)%N || (Normalize.code c =? 44)%N
      then cur :: re_split_colon_comma tl EmptyString
      else re_split_colon_comma tl (cur ++ String c EmptyString)%string
  end.

(** The local variables of [_parse]; the four that a line assigns are
    unbound until then. *)
Record state : Type := mkState {
  stage : Z;
  ignoring : bool;
  fragmentlist : list Fragment;
  v_seqnumber : option Z;
  v_starttime : option Datetime.t;
  v_endtime : option Datetime.t;
  v_textlines : option (list string)
}.

Definition initial : state :=
  mkState 0 true [] None None None None.

(** Reading a local variable. *)
Definition local {A} (v : option A) : result A :=
  match v with
  | Some a => Ok a
  | None => Raise UnboundLocalError
  end.

(** [Fragment(seqnumber, starttime, endtime, textlines)]. *)
Definition current_fragment (st : state) : result Fragment :=
  n <- local (v_seqnumber st) ;;
  s <- local (v_starttime st) ;;
  e <- local (v_endtime st) ;;
  t <- local (v_textlines st) ;;
  Ok (mkFragment n s e t).

Definition not_a_sequence_number (line : string) : string :=
  ("'" ++ line ++ "' is not a valid sequence number")%string.

Definition not_a_period (line : string) : string :=
  ("'" ++ line ++ "' does not seem to have a valid period line format")%string.

Section WithInt.

(** The builtin [int(s)]; [None] stands for its [ValueError]. *)
Variable py_int : string -> option Z.

Definition int_or_ValueError (s : string) : result Z :=
  match py_int s with
  | Some z => Ok z
  | None => Raise ValueError
  end.

(** One side of the period line: [[int(i) for i in re.split(...)]], the
    length assertion, the milliseconds scaled, the [datetime] built. *)
Definition parse_time (line side : string) : result Datetime.t :=
  tuple <- map_m int_or_ValueError
             (re_split_colon_comma side EmptyString) ;;
  match tuple with
  | [h; m; s; ms] => Datetime.make_1900 h m s (ms * 1000)
  | _ => Raise (SRTParseException (not_a_period line))
  end.

(** The body of [for line in srtfile]. *)
Definition parse_line (st : state) (raw : string) : result state :=
  let line := strip raw in
  if String.eqb line EmptyString then
    if negb (ignoring st) then
      f <- current_fragment st ;;
      Ok (mkState 0 true (fragmentlist st ++ [f]) (v_seqnumber st)
            (v_starttime st) (v_endtime st) (v_textlines st))
    else Ok st
  else
    let st := mkState (stage st) false (fragmentlist st) (v_seqnumber st)
                (v_starttime st) (v_endtime st) (v_textlines st) in
    st' <-
      (if 0 =? stage st then
         match py_int line with
         | Some n =>
             Ok (mkState (stage st) false (fragmentlist st) (Some n)
                   (v_starttime st) (v_endtime st) (v_textlines st))
         | None =>
             Raise (SRTParseException (not_a_sequence_number line))
         end
       else if 1 =? stage st then
         match map strip (split line "-->"%string) with
         | [p0; p1] =>
             starttime <- parse_time line p0 ;;
             endtime <- parse_time line p1 ;;
             Ok (mkState (stage st) false (fragmentlist st)
                   (v_seqnumber st) (Some starttime) (Some endtime)
                   (v_textlines st))
         | _ => Raise (SRTParseException (not_a_period line))
         end
       else if 2 =? stage st then
         Ok (mkState (stage st) false (fragmentlist st) (v_seqnumber st)
               (v_starttime st) (v_endtime st) (Some [line]))
       else
         textlines <- local (v_textlines st) ;;
         Ok (mkState (stage st) false (fragmentlist st) (v_seqnumber st)
               (v_starttime st) (v_endtime st)
               (Some (textlines ++ [line])))) ;;
    Ok (mkState (stage st' + 1) (ignoring st') (fragmentlist st')
          (v_seqnumber st') (v_starttime st') (v_endtime st')
          (v_textlines st')).

(** [_parse] on the decoded lines of the file. *)
Definition _parse (lines : list string) : result (list Fragment) :=
  st <- for_each parse_line lines initial ;;
  if negb (ignoring st) then
    f <- current_fragment st ;;
    Ok (fragmentlist st ++ [f])
  else Ok (fragmentlist st).

End WithInt.

(** A decimal [int] for the examples: an optional sign and digits. *)
Fixpoint digits (s : string) (acc : Z) : option Z :=
  match s with
  | EmptyString => Some acc
  | String c tl =>
      if Normalize.in_range 48 57 c
      then digits tl (10 * acc + Z.of_N (Normalize.code c) - 48)
      else None
  end.

Definition decimal_int (s : string) : option Z :=
  match s with
  | EmptyString => None
  | String c tl =>
      if (Normalize.code c =? 45)%N then
        match tl with
        | EmptyString => None
        | _ => option_map Z.opp (digits tl 0)
        end
      else if (Normalize.code c =? 43)%N then
        match tl with
        | EmptyString => None
        | _ => digits tl 0
        end
      else digits s 0
  end.

End Parse.

(** ** Predicates and reference definitions used by the properties *)

Module NormalizeSpec.

Import Normalize.

Fixpoint all_chars (p : ascii -> bool) (s : string) : bool :=
  match s with
  | EmptyString => true
  | String c tl => p c && all_chars p tl
  end.

(** Any character but [<]. *)
Definition not_lt (c : ascii) : bool := negb (code c =? 60)%N.

(** Any character but the capitals A-Z. *)
Definition not_upper (c : ascii) : bool := negb (in_range 65 90 c).

Definition is_blank (c : ascii) : bool := (code c =? 32)%N.

(** The characters [normalize] can leave: [[a-z0-9_]], the letter n with
    tilde, and the space. *)
Definition clean (c : ascii) : bool :=
  in_range 48 57 c || in_range 97 122 c || (code c =? 95)%N
  || (code c =? 241)%N || is_blank c.

Definition starts_blank (s : string) : bool :=
  match s with
  | String c _ => is_blank c
  | EmptyString => false
  end.

Definition starts_noise (s : string) : bool :=
  match s with
  | String c _ => is_noise c
  | EmptyString => false
  end.

(** No two adjacent spaces. *)
Fixpoint no_double_space (s : string) : bool :=
  match s with
  | EmptyString => true
  | String c tl => negb (is_blank c && starts_blank tl) && no_double_space tl
  end.

End NormalizeSpec.

Module SyncSpec.

(** The formulas of the specification, on the start and end times of the
    fragments themselves, in microseconds. *)

(** [min(ref.end, f.end) - max(ref.start, f.start)]. *)
Definition computed_overlap (ref f : Fragment) : Z :=
  Z.min (endtime ref) (endtime f) - Z.max (starttime ref) (starttime f).

(** [ref.duration]: the end minus the start. *)
Definition spec_duration (ref : Fragment) : Z :=
  endtime ref - starttime ref.

(** The overlap score: the overlap
    [max(0, min(ref.end, f.end) - max(ref.start, f.start))] divided by
    [ref.duration], and 0 when the computed overlap is not positive. *)
Definition spec_overlap_score (ref f : Fragment) : result float :=
  if computed_overlap ref f <=? 0 then Ok (float_of_int 0)
  else fdiv (float_of_int (Z.max 0 (computed_overlap ref f)))
            (float_of_int (spec_duration ref)).

(** The time score: [1 - |ref.start - f.start| / windowInterval]. *)
Definition spec_time_score (ref f : Fragment) (windowInterval : float)
  : result float :=
  q <- fdiv (float_of_int (Z.abs (starttime ref - starttime f)))
            windowInterval ;;
  Ok (PrimFloat.sub (float_of_int 1) q).

(** [0.5 * time_score + 0.3 * lcsr_score + 0.2 * overlap_score]. *)
Definition spec_confidence (time_score lcsr_score overlap_score : float)
  : float :=
  (0.5 * time_score + 0.3 * lcsr_score + 0.2 * overlap_score)%float.

(** The confidence of the candidate [f] as the specification computes it:
    the least ratio of the oracle, the time score, the overlap score and
    their weighted sum. *)
Definition spec_confidence_of (get_paraphrases : Sync.oracle)
  (ref : Fragment) (windowInterval : float) (f : Fragment) : result float :=
  lcsr_score <-
    fmin (get_paraphrases (Normalize.normalize (FragmentM.text ref))
                          (Normalize.normalize (FragmentM.text f))) ;;
  time_score <- spec_time_score ref f windowInterval ;;
  overlap_score <- spec_overlap_score ref f ;;
  Ok (spec_confidence time_score lcsr_score overlap_score).

(** Both times of the fragment are on the day numbered [day], counted from
    [datetime.min]. *)
Definition on_day (day : Z) (f : Fragment) : Prop :=
  starttime f / Datetime.day_us = day /\ endtime f / Datetime.day_us = day.

(** The reading under which the reference is the stream whose last fragment
    starts later. *)
Definition later_is_reference (sstream1 sstream2 : SubtitleStream) : Prop :=
  forall reference delayed f lastr lastd,
    Sync.partial_synchronization sstream1 sstream2
    = Ok (reference, delayed, f) ->
    getitem reference (-1) = Ok lastr ->
    getitem delayed (-1) = Ok lastd ->
    _u (starttime lastd) < _u (starttime lastr).

End SyncSpec.

(** ** Sample streams *)

Module Sample.

(** The [datetime] the parser builds for [h:m:s,ms]. *)
Definition at_1900 (h m s ms : Z) : Datetime.t :=
  (Datetime.ordinal_1900_01_01 - 1) * Datetime.day_us
  + h * Datetime.hour_us + m * Datetime.minute_us + s * Datetime.second_us
  + ms * 1000.

(** A fragment numbered [n] that is shown from second [n] for half a
    second. *)
Definition numbered (n : Z) : Fragment :=
  mkFragment n (at_1900 0 0 n 0) (at_1900 0 0 n 500) ["line"%string].

(** Fragments numbered 1, 2, 4, 5: a gap at 3. *)
Definition gapped : SubtitleStream :=
  [numbered 1; numbered 2; numbered 4; numbered 5].

(** A stream of one fragment, shown from second [s] for two seconds. *)
Definition starting_at (s : Z) : SubtitleStream :=
  [mkFragment 1 (at_1900 0 0 s 0) (at_1900 0 0 (s + 2) 0) ["line"%string]].

(** An oracle that finds every pair of texts alike. *)
Definition alike : Sync.oracle := fun _ _ => [1%float].

Definition nl : string := String (ascii_of_nat 10) EmptyString.

(** A well-formed block followed by a block that opens with [abc]. *)
Definition srt_with_abc : list string :=
  [("1" ++ nl)%string; ("00:00:01,500 --> 00:00:02,000" ++ nl)%string;
   ("Hello" ++ nl)%string; nl; ("abc" ++ nl)%string;
   ("00:00:03,000 --> 00:00:04,000" ++ nl)%string].

End Sample.

(** A fragment with both times moved by [a] microseconds. *)
Definition moved (f : Fragment) (a : Z) : Fragment :=
  mkFragment (seqnumber f) (starttime f + a) (endtime f + a) (textlines f).

(** ** Printing and the lines of a text *)

Module Format.

(** The line feed as a string. *)
Definition nl : string := String Normalize.newline EmptyString.

(** The character of the decimal digit [d]. *)
Definition digit_char (d : Z) : ascii := ascii_of_N (Z.to_N (48 + d)).

(** [n] on two digits, as [%H], [%M] and [%S] print it. *)
Definition pad2 (n : Z) : string :=
  String (digit_char (n / 10)) (String (digit_char (n mod 10)) EmptyString).

(** [n] on three digits. *)
Definition pad3 (n : Z) : string :=
  String (digit_char (n / 100)) (pad2 (n mod 100)).

(** [n] on six digits, as [%f] prints the microseconds. *)
Definition pad6 (n : Z) : string :=
  (pad3 (n / 1000) ++ pad3 (n mod 1000))%string.

(** The decimal digits of [n >= 0] followed by [acc]; [fuel] bounds the
    number of digits. *)
Fixpoint digits_of (fuel : nat) (n : Z) (acc : string) : string :=
  match fuel with
  | O => acc
  | S k =>
      let acc' := String (digit_char (n mod 10)) acc in
      if n / 10 =? 0 then acc' else digits_of k (n / 10) acc'
  end.

(** [u'%d' % n]. *)
Definition percent_d (n : Z) : string :=
  if n <? 0
  then String "-" (digits_of (S (Z.to_nat (Z.log2 (- n)))) (- n) EmptyString)
  else digits_of (S (Z.to_nat (Z.log2 n))) n EmptyString.

(** [t.strftime(u'%H:%M:%S,%f')]: [datetime.strftime] refuses a year before
    1900. *)
Definition strftime (t : Datetime.t) : result string :=
  if t <? (Datetime.ordinal_1900_01_01 - 1) * Datetime.day_us
  then Raise ValueError
  else Ok (pad2 (Datetime.hour t) ++ ":" ++ pad2 (Datetime.minute t) ++ ":"
           ++ pad2 (Datetime.second t) ++ ","
           ++ pad6 (Datetime.microsecond t))%string.

(** [s[:-3]]. *)
Definition drop_last3 (s : string) : string :=
  String.substring 0 (String.length s - 3) s.

(** [Py_UNICODE_ISLINEBREAK] below 256, as Python 2.7 has it. *)
Definition is_linebreak (c : ascii) : bool :=
  Normalize.in_range 10 13 c || Normalize.in_range 28 30 c
  || (Normalize.code c =? 133)%N.

(** [s.splitlines(True)], the lines that iterating over the decoded file
    gives: each line keeps its line break, and a carriage return followed
    by a line feed is one line break.  [cur] is the line being read. *)
Fixpoint splitlines (s cur : string) : list string :=
  match s with
  | EmptyString =>
      match cur with
      | EmptyString => []
      | _ => [cur]
      end
  | String c tl =>
      let cur' := (cur ++ String c EmptyString)%string in
      if is_linebreak c then
        if (Normalize.code c =? 13)%N
           && match tl with
              | String c' _ => (Normalize.code c' =? 10)%N
              | EmptyString => false
              end
        then splitlines tl cur'
        else cur' :: splitlines tl EmptyString
      else splitlines tl cur'
  end.

End Format.

(** ** The rest of [Fragment] and [SubtitleStream] *)

Module FragmentOps.

(** The setter of [Fragment.text]: [self._textlines = value.split(u'\n')].
    A [value] that is not a string is excluded by its type. *)
Definition set_text (self : Fragment) (value : string) : Fragment :=
  mkFragment (seqnumber self) (starttime self) (endtime self)
    (Parse.split value (String Normalize.newline EmptyString)).

(** [Fragment.__unicode__]. *)
Definition unicode (self : Fragment) : result string :=
  s <- Format.strftime (starttime self) ;;
  let formatted_starttime := Format.drop_last3 s in
  e <- Format.strftime (endtime self) ;;
  let formatted_endtime := Format.drop_last3 e in
  Ok (Format.percent_d (seqnumber self) ++ Format.nl
      ++ formatted_starttime ++ " --> " ++ formatted_endtime ++ Format.nl
      ++ String.concat Format.nl (textlines self))%string.

End FragmentOps.

Module StreamOps.

(** [SubtitleStream.all_script]. *)
Definition all_script (self : SubtitleStream) : string :=
  String.concat " " (map FragmentM.text self).

(** [SubtitleStream.duration]. *)
Definition duration (self : SubtitleStream) : result Z :=
  last <- getitem self (-1) ;;
  last' <- getitem self (-1) ;;
  Ok (_u (endtime last')).

(** [SubtitleStream.__unicode__]. *)
Definition unicode (self : SubtitleStream) : result string :=
  for_each
    (fun (output : string) fragment =>
       u <- FragmentOps.unicode fragment ;;
       Ok (output ++ (u ++ Format.nl ++ Format.nl))%string)
    self EmptyString.

End StreamOps.

(** ** Invariants of the parser and of the selection loop *)

Module ParseSpec.

(** Midnight of 1900-01-01. *)
Definition midnight_1900 : Datetime.t :=
  (Datetime.ordinal_1900_01_01 - 1) * Datetime.day_us.

(** A time of 1900-01-01 with whole milliseconds. *)
Definition on_1900 (t : Datetime.t) : Prop :=
  midnight_1900 <= t < midnight_1900 + Datetime.day_us /\ t mod 1000 = 0.

(** A text line as the parser keeps it: not empty, no white space around
    it. *)
Definition good_line (l : string) : Prop :=
  l <> EmptyString /\ Parse.strip l = l.

(** What every fragment the parser returns satisfies: both times are on
    1900-01-01 with whole milliseconds, and there is at least one text
    line, each of them a [good_line]. *)
Definition good_fragment (f : Fragment) : Prop :=
  on_1900 (starttime f) /\ on_1900 (endtime f)
  /\ textlines f <> [] /\ Forall good_line (textlines f).

Definition if_bound {A} (P : A -> Prop) (v : option A) : Prop :=
  match v with
  | Some a => P a
  | None => True
  end.

(** The invariant of the loop of [_parse]. *)
Definition state_ok (st : Parse.state) : Prop :=
  Forall good_fragment (Parse.fragmentlist st)
  /\ if_bound on_1900 (Parse.v_starttime st)
  /\ if_bound on_1900 (Parse.v_endtime st)
  /\ if_bound (fun l => l <> [] /\ Forall good_line l) (Parse.v_textlines st).

End ParseSpec.

Module SelectSpec.

(** The interval [select_closest] divides by. *)
Definition interval_of (first last : Fragment) : float :=
  float_of_int (_u (starttime last) - _u (starttime first)).

(** The invariant of the loop of [select_closest]: the best choice is one
    of the options, and the best confidence is still the initial 0, with the
    first option as the choice, or the confidence of the choice. *)
Definition chosen (gp : Sync.oracle) (ref first : Fragment)
  (interval : float) (options : list Fragment) (best : Fragment * num)
  : Prop :=
  In (fst best) options
  /\ ((snd best = PInt 0 /\ fst best = first)
      \/ exists c, snd best = PFloat c
                   /\ Sync.confidence_of gp ref interval (fst best) = Ok c).

(** What a fragment matched by [_synchronize] is: a copy of a fragment of
    the delayed stream with other times. *)
Definition from_delayed (delayed : SubtitleStream) (t : Sync.triple) : Prop :=
  exists g, In g delayed
            /\ seqnumber (snd (fst t)) = seqnumber g
            /\ textlines (snd (fst t)) = textlines g.

End SelectSpec.

(** ** What the printed text is made of *)

Module PrintSpec.

Definition is_digit (c : ascii) : bool := Normalize.in_range 48 57 c.

Definition not_space (c : ascii) : bool := negb (Parse.is_space c).

Definition not_linebreak (c : ascii) : bool := negb (Format.is_linebreak c).

Definition not_dash (c : ascii) : bool := negb (Normalize.code c =? 45)%N.

(** A time of day as the printed text shows it: [HH:MM:SS,mmm], the
    microseconds cut to milliseconds. *)
Definition clock (t : Datetime.t) : string :=
  (Format.pad2 (Datetime.hour t) ++ ":" ++ Format.pad2 (Datetime.minute t)
   ++ ":" ++ Format.pad2 (Datetime.second t) ++ ","
   ++ Format.pad3 (Datetime.microsecond t / 1000))%string.

(** The period line of a fragment. *)
Definition period (f : Fragment) : string :=
  (clock (starttime f) ++ " --> " ++ clock (endtime f))%string.

(** The lines of the text of a fragment in a printed stream, the blank line
    that closes it included. *)
Definition block_lines (f : Fragment) : list string :=
  (Format.percent_d (seqnumber f) ++ Format.nl)%string
  :: (period f ++ Format.nl)%string
  :: map (fun l => (l ++ Format.nl)%string) (textlines f) ++ [Format.nl].

(** A fragment that is printed and read back unchanged: as the parser
    builds them, with no line break inside a text line. *)
Definition printable (f : Fragment) : Prop :=
  ParseSpec.good_fragment f
  /\ Forall (fun l => NormalizeSpec.all_chars not_linebreak l = true)
       (textlines f).

(** [int] reads at least the decimal numbers. *)
Definition reads_decimal (py_int : string -> option Z) : Prop :=
  forall s z, Parse.decimal_int s = Some z -> py_int s = Some z.

(** The characters of a printed time. *)
Definition clock_char (c : ascii) : bool :=
  is_digit c || (Normalize.code c =? 58)%N || (Normalize.code c =? 44)%N.

(** The text of a fragment whose times are of 1900 or later. *)
Definition fragment_text (f : Fragment) : string :=
  (Format.percent_d (seqnumber f) ++ Format.nl
   ++ clock (starttime f) ++ " --> " ++ clock (endtime f) ++ Format.nl
   ++ String.concat Format.nl (textlines f))%string.

(** The text of a stream of such fragments. *)
Fixpoint stream_text (s : SubtitleStream) : string :=
  match s with
  | [] => EmptyString
  | f :: tl =>
      (fragment_text f ++ Format.nl ++ Format.nl ++ stream_text tl)%string
  end.

(** Both times of the fragment are of 1900 or later. *)
Definition since_1900 (f : Fragment) : Prop :=
  ParseSpec.midnight_1900 <= starttime f
  /\ ParseSpec.midnight_1900 <= endtime f.

End PrintSpec.

Module SampleSrt.

(** Two well-formed blocks, the second one not closed by a blank line. *)
Definition srt_two_blocks : list string :=
  [("1" ++ Sample.nl)%string;
   ("00:00:01,500 --> 00:00:02,000" ++ Sample.nl)%string;
   (" Hello" ++ Sample.nl)%string; "world"%string; Sample.nl;
   "2"%string; "00:01:00,000-->00:01:02,123"%string; "x"%string].

(** The stream they are parsed to. *)
Definition two_blocks : SubtitleStream :=
  [mkFragment 1 (Sample.at_1900 0 0 1 500) (Sample.at_1900 0 0 2 0)
     ["Hello"%string; "world"%string];
   mkFragment 2 (Sample.at_1900 0 1 0 0) (Sample.at_1900 0 1 2 123)
     ["x"%string]].

End SampleSrt.

Module SampleMidnight.

(** A fragment shown from [s_ms] to [e_ms] milliseconds after midnight of
    1900-01-01; a negative number is a time of the day before. *)
Definition span (n s_ms e_ms : Z) : Fragment :=
  mkFragment n (Sample.at_1900 0 0 0 s_ms) (Sample.at_1900 0 0 0 e_ms)
    ["line"%string].

(** Two streams of two fragments; the second one ends 20 seconds later. *)
Definition R : SubtitleStream := [span 1 1000 3000; span 2 10000 12000].
Definition D : SubtitleStream := [span 1 1500 4500; span 2 30000 32000].

(** The first fragment of [R], and the first fragment of [D] moved back by
    the two seconds that the delay function gives for it: it starts half a
    second before midnight. *)
Definition ref : Fragment := span 1 1000 3000.
Definition candidate : Fragment := span 1 (-500) 2500.

(** The interval of the window of [ref]: [D] moved back by two seconds. *)
Definition interval : float :=
  SelectSpec.interval_of candidate (span 2 28000 30000).

(** A reference and a candidate of the same day that overlap for one
    second. *)
Definition early : Fragment := span 1 1000 3000.
Definition late : Fragment := span 2 2000 4000.

End SampleMidnight.

(** * Properties *)

(** ** The runtime *)

Lemma bind_ok {A B} (m : result A) (k : A -> result B) b :
  Py.bind m k = Ok b -> exists a, m = Ok a /\ k a = Ok b.
Proof. destruct m; simpl; intros H; [eauto | discriminate]. Qed.

Lemma for_each_app {A S} (body : S -> A -> result S) l1 l2 acc :
  for_each body (l1 ++ l2) acc
  = Py.bind (for_each body l1 acc) (for_each body l2).
Proof.
  revert acc. induction l1 as [|x tl IH]; intros acc; simpl; [reflexivity|].
  destruct (body acc x); simpl; [apply IH | reflexivity].
Qed.

Lemma map_m_length {A B} (f : A -> result B) l : forall l',
  map_m f l = Ok l' -> List.length l' = List.length l.
Proof.
  induction l as [|x tl IH]; intros l' H; simpl in H.
  - now injection H as <-.
  - apply bind_ok in H as (y & _ & H). apply bind_ok in H as (ys & Hys & H).
    injection H as <-. simpl. f_equal. now apply IH.
Qed.

Lemma getitem_nil {A} k : getitem (@nil A) k = Raise IndexError.
Proof.
  unfold getitem, len. simpl.
  destruct (k <? 0) eqn:E.
  - replace (k + 0 <? 0) with true by (symmetry; apply Z.ltb_lt; lia).
    reflexivity.
  - rewrite E. simpl.
    replace (0 <=? k) with true by (symmetry; apply Z.leb_le; lia).
    reflexivity.
Qed.

(** Indexing raises nothing but [IndexError]. *)
Lemma getitem_raise {A} (l : list A) k e :
  getitem l k = Raise e -> e = IndexError.
Proof.
  unfold getitem.
  destruct (_ || _); [now intros [= <-]|].
  destruct (nth_error _ _); [discriminate | now intros [= <-]].
Qed.

Lemma getitem_in_range {A} (l : list A) k :
  0 <= k < len l ->
  exists x, getitem l k = Ok x /\ nth_error l (Z.to_nat k) = Some x.
Proof.
  intros Hk. unfold getitem.
  destruct (k <? 0) eqn:E; [lia|].
  destruct (k <? 0) eqn:E1; [lia|].
  destruct (len l <=? k) eqn:E2; [lia|]. simpl.
  destruct (nth_error l (Z.to_nat k)) eqn:N; [eauto|].
  apply nth_error_None in N. unfold len in Hk. lia.
Qed.

(** [l[-1]] of a non-empty list is one of its elements. *)
Lemma getitem_last_ok {A} (l : list A) :
  l <> [] -> exists x, getitem l (-1) = Ok x /\ In x l.
Proof.
  intros NE. unfold getitem.
  assert (L : 1 <= len l)
    by (unfold len; destruct l; [congruence | simpl; lia]).
  replace (-1 <? 0) with true by reflexivity. cbv iota.
  destruct (-1 + len l <? 0) eqn:E1; [lia|].
  destruct (len l <=? -1 + len l) eqn:E2; [lia|]. cbn [orb].
  destruct (nth_error l (Z.to_nat (-1 + len l))) eqn:N.
  - exists a. split; [reflexivity|]. eapply nth_error_In; eassumption.
  - apply nth_error_None in N. unfold len in *. lia.
Qed.

Lemma getitem_single {A} (x : A) k :
  k = 0 \/ k = -1 -> getitem [x] k = Ok x.
Proof. intros [-> | ->]; reflexivity. Qed.

Lemma clamp_index_id n k : 0 <= k <= n -> clamp_index n k = k.
Proof.
  intros H. unfold clamp_index.
  destruct (k <? 0) eqn:E; [lia|]. rewrite E.
  destruct (n <? k) eqn:E2; [lia | reflexivity].
Qed.

(** A slice between bounds in range is the sub-list, [hi - lo] long. *)
Lemma getslice_in_range {A} (l : list A) lo hi :
  0 <= lo <= hi -> hi <= len l ->
  getslice l lo hi = firstn (Z.to_nat (hi - lo)) (skipn (Z.to_nat lo) l)
  /\ len (getslice l lo hi) = hi - lo.
Proof.
  intros H1 H2. unfold getslice. rewrite !clamp_index_id by lia.
  split; [reflexivity|]. unfold len in *.
  rewrite length_firstn, length_skipn. lia.
Qed.

(** Dividing by the float of the integer 0 raises. *)
Lemma fdiv_by_zero x : fdiv x (float_of_int 0) = Raise ZeroDivisionError.
Proof. reflexivity. Qed.

(** ** [datetime] arithmetic and [shift] *)

Lemma checked_ok d r : Datetime.checked d = Ok r -> r = d /\ Datetime.valid d.
Proof.
  unfold Datetime.checked, Datetime.valid.
  destruct (0 <=? d) eqn:E1; destruct (d <=? Datetime.max_us) eqn:E2; simpl;
    intros H; try discriminate.
  injection H as <-. split; [reflexivity | lia].
Qed.

Lemma checked_valid d : Datetime.valid d -> Datetime.checked d = Ok d.
Proof.
  unfold Datetime.checked, Datetime.valid. intros [H1 H2].
  apply Z.leb_le in H1, H2. now rewrite H1, H2.
Qed.

Lemma timedelta_int_ok z r :
  Datetime.timedelta_microseconds (PInt z) = Ok r ->
  r = z /\ z / Datetime.day_us <= Datetime.max_delta_days.
Proof.
  unfold Datetime.timedelta_microseconds. simpl.
  destruct (Datetime.max_delta_days <? z / Datetime.day_us) eqn:E;
    intros H; [discriminate|].
  injection H as <-. split; [reflexivity | lia].
Qed.

(** A delta that fits between two datetimes is far below [timedelta.max]. *)
Lemma timedelta_int_small z :
  0 <= z <= Datetime.max_us ->
  Datetime.timedelta_microseconds (PInt z) = Ok z.
Proof.
  intros Hz. unfold Datetime.timedelta_microseconds. simpl.
  assert (z / Datetime.day_us <= Datetime.max_us / Datetime.day_us)
    by (apply Z.div_le_mono; [reflexivity | lia]).
  assert (Datetime.max_us / Datetime.day_us <= Datetime.max_delta_days)
    by (vm_compute; discriminate).
  destruct (Datetime.max_delta_days <? z / Datetime.day_us) eqn:E;
    [lia | reflexivity].
Qed.

(** A shift by an integer that succeeds moves both times by it. *)
Lemma fragment_shift_int f a f' :
  FragmentM.shift f (PInt a) = Ok f' ->
  f' = moved f a /\ FragmentM.valid f'.
Proof.
  unfold FragmentM.shift. intros H.
  apply bind_ok in H as (delta & Hd & H).
  apply timedelta_int_ok in Hd as [-> _]. simpl in H.
  destruct (a <? 0) eqn:Ea;
    apply bind_ok in H as (s & Hs & H);
    apply bind_ok in H as (e & He & H);
    injection H as <-;
    apply checked_ok in Hs as [-> Vs]; apply checked_ok in He as [-> Ve];
    unfold moved, FragmentM.valid; simpl.
  - replace (starttime f - Z.abs a) with (starttime f + a) in * by lia.
    replace (endtime f - Z.abs a) with (endtime f + a) in * by lia. now split.
  - replace (starttime f + Z.abs a) with (starttime f + a) in * by lia.
    replace (endtime f + Z.abs a) with (endtime f + a) in * by lia. now split.
Qed.

(** A shift succeeds when the fragment and the moved fragment are both in
    the range of [datetime]. *)
Lemma fragment_shift_int_valid f a :
  FragmentM.valid f -> FragmentM.valid (moved f a) ->
  FragmentM.shift f (PInt a) = Ok (moved f a).
Proof.
  unfold FragmentM.valid, Datetime.valid, moved. simpl.
  intros [Hs He] [Hs' He'].
  unfold FragmentM.shift. simpl.
  rewrite timedelta_int_small by lia. simpl.
  unfold Datetime.add, Datetime.sub.
  destruct (a <? 0) eqn:Ea.
  - replace (starttime f - Z.abs a) with (starttime f + a) by lia.
    replace (endtime f - Z.abs a) with (endtime f + a) by lia.
    rewrite !checked_valid by (unfold Datetime.valid; lia). reflexivity.
  - replace (starttime f + Z.abs a) with (starttime f + a) by lia.
    replace (endtime f + Z.abs a) with (endtime f + a) by lia.
    rewrite !checked_valid by (unfold Datetime.valid; lia). reflexivity.
Qed.

Lemma fragment_shift_shift f a b f1 f2 :
  FragmentM.valid f ->
  FragmentM.shift f (PInt a) = Ok f1 ->
  FragmentM.shift f1 (PInt b) = Ok f2 ->
  FragmentM.shift f (PInt (a + b)) = Ok f2.
Proof.
  intros V H1 H2.
  apply fragment_shift_int in H1 as [-> V1].
  apply fragment_shift_int in H2 as [-> V2].
  assert (E : moved (moved f a) b = moved f (a + b)).
  { unfold moved. simpl. f_equal; lia. }
  rewrite E in *. now apply fragment_shift_int_valid.
Qed.

Lemma stream_shift_shift s : forall a b s1 s2,
  Forall FragmentM.valid s ->
  Stream.shift s (PInt a) = Ok s1 ->
  Stream.shift s1 (PInt b) = Ok s2 ->
  Stream.shift s (PInt (a + b)) = Ok s2.
Proof.
  unfold Stream.shift.
  induction s as [|f s IH]; intros a b s1 s2 V H1 H2.
  - simpl in H1. injection H1 as <-. simpl in H2. exact H2.
  - simpl in H1. apply bind_ok in H1 as (f1 & Hf1 & H1).
    apply bind_ok in H1 as (t1 & Ht1 & H1). injection H1 as <-.
    simpl in H2. apply bind_ok in H2 as (f2 & Hf2 & H2).
    apply bind_ok in H2 as (t2 & Ht2 & H2). injection H2 as <-.
    inversion V as [|? ? Vf Vs]; subst.
    simpl. rewrite (fragment_shift_shift f a b f1 f2 Vf Hf1 Hf2). simpl.
    rewrite (IH a b t1 t2 Vs Ht1 Ht2). reflexivity.
Qed.

(** C7.  For a stream of fragments whose times are datetimes, and integers
    [a] and [b] for which shifting by [a] and then by [b] stays within the
    range of [datetime] (neither shift raises), shifting by [a + b] succeeds
    as well and gives fragments with the same start and end times. *)
Theorem shift_composition (s : SubtitleStream) (a b : Z)
  (s1 s2 : SubtitleStream) :
  Forall FragmentM.valid s ->
  Stream.shift s (PInt a) = Ok s1 ->
  Stream.shift s1 (PInt b) = Ok s2 ->
  exists s3, Stream.shift s (PInt (a + b)) = Ok s3
             /\ map starttime s3 = map starttime s2
             /\ map endtime s3 = map endtime s2.
Proof.
  intros V H1 H2. exists s2. split; [|split]; try reflexivity.
  eapply stream_shift_shift; eassumption.
Qed.

Lemma gapped_valid : Forall FragmentM.valid Sample.gapped.
Proof.
  repeat constructor; vm_compute; intros H; discriminate H.
Qed.

Lemma shift_composition_witness :
  exists s3, Stream.shift Sample.gapped (PInt (1000000 + -250000)) = Ok s3
             /\ map starttime s3
                = map starttime
                    (map (fun f => moved f 750000) Sample.gapped)
             /\ map endtime s3
                = map endtime (map (fun f => moved f 750000) Sample.gapped).
Proof.
  apply (shift_composition Sample.gapped 1000000 (-250000)
           (map (fun f => moved f 1000000) Sample.gapped)
           (map (fun f => moved f 750000) Sample.gapped)).
  - exact gapped_valid.
  - vm_compute. reflexivity.
  - vm_compute. reflexivity.
Defined.

(** ** The candidate window *)

Section Window.

Variables (fixed : SubtitleStream) (fragment : Fragment).

(** The scan stays within the stream and, given enough fuel, stops where
    the condition of the [while] is false. *)
Lemma scan_spec : forall fuel j,
  0 <= j <= len fixed - 1 ->
  len fixed - 1 - j <= Z.of_nat fuel ->
  exists j', Sync.scan fuel fixed fragment j = Ok j'
    /\ j <= j' <= len fixed - 1
    /\ (j' < len fixed - 1 ->
        exists fj, getitem fixed j' = Ok fj
                   /\ starttime fragment <= starttime fj).
Proof.
  induction fuel as [|n IH]; intros j Hj Hf.
  - exists j. simpl. split; [reflexivity|]. split; [lia|]. lia.
  - simpl. destruct (j <? len fixed - 1) eqn:E.
    + destruct (getitem_in_range fixed j) as (fj & G & _); [lia|].
      rewrite G. simpl.
      destruct (starttime fj <? starttime fragment) eqn:C.
      * destruct (IH (j + 1)) as (j' & S' & B & X); [lia | lia |].
        exists j'. split; [exact S'|]. split; [lia | exact X].
      * exists j. split; [reflexivity|]. split; [lia|].
        intros _. exists fj. split; [exact G | lia].
    + exists j. split; [reflexivity|]. split; lia.
Qed.

(** The cursor does not move when no fragment starts before the reference
    fragment. *)
Lemma scan_before_all : forall fuel,
  (forall g, In g fixed -> starttime fragment <= starttime g) ->
  Sync.scan fuel fixed fragment 0 = Ok 0.
Proof.
  intros [|n] H; [reflexivity|]. simpl.
  destruct (0 <? len fixed - 1) eqn:E; [|reflexivity].
  destruct (getitem_in_range fixed 0) as (fj & G & N); [lia|].
  rewrite G. simpl. apply nth_error_In in N. apply H in N.
  destruct (starttime fj <? starttime fragment) eqn:C; [lia | reflexivity].
Qed.

Lemma window_of_nonempty :
  fixed <> [] ->
  exists j candidates,
    Sync.window fixed fragment = Ok (j, candidates)
    /\ 0 <= j < len fixed
    /\ (j < len fixed - 1 ->
        exists fj, getitem fixed j = Ok fj
                   /\ starttime fragment <= starttime fj)
    /\ 0 <= Z.max 0 (j - 1) < Z.min (len fixed) (j + 2)
    /\ candidates
       = firstn (Z.to_nat (Z.min (len fixed) (j + 2) - Z.max 0 (j - 1)))
           (skipn (Z.to_nat (Z.max 0 (j - 1))) fixed)
    /\ 1 <= len candidates <= 3
    /\ ((forall g, In g fixed -> starttime fragment <= starttime g) ->
        j = 0 /\ candidates = firstn 2 fixed).
Proof.
  intros NE.
  assert (L : 1 <= len fixed).
  { unfold len. destruct fixed; [congruence | simpl; lia]. }
  destruct (scan_spec (List.length fixed) 0) as (j & S & B & X);
    [lia | unfold len; lia |].
  destruct (getslice_in_range fixed (Z.max 0 (j - 1))
              (Z.min (len fixed) (j + 2))) as [GS GL]; [lia | lia |].
  exists j, (getslice fixed (Z.max 0 (j - 1)) (Z.min (len fixed) (j + 2))).
  split. { unfold Sync.window. rewrite S. reflexivity. }
  split; [lia|]. split; [exact X|]. split; [lia|]. split; [exact GS|].
  split; [lia|].
  intros H. rewrite (scan_before_all _ H) in S. injection S as <-.
  split; [reflexivity|]. rewrite GS.
  replace (Z.to_nat (Z.max 0 (0 - 1))) with 0%nat by lia.
  replace (Z.to_nat (Z.min (len fixed) (0 + 2) - Z.max 0 (0 - 1)))
    with (Nat.min 2 (List.length fixed)) by (unfold len; lia).
  simpl skipn. rewrite <- firstn_firstn. rewrite firstn_all. reflexivity.
Qed.

End Window.

(** C8.  When the delayed stream is not empty and its corrected copy
    [fixed] is built, the window of any reference fragment is computed
    without error: the cursor [j] is a valid index at which the loop
    condition is false, the slice starts at [max(0, j-1)], which is never
    negative, and holds between one and three consecutive fragments of
    [fixed].  For a fragment that starts no later than every fragment of
    [fixed], the cursor stays at 0 and the window is the first two fragments
    (the only one for a stream of one). *)
Theorem window_bounds (delayed fixed : SubtitleStream) (n : num)
  (fragment : Fragment) :
  delayed <> [] ->
  Stream.shift delayed n = Ok fixed ->
  exists j candidates,
    Sync.window fixed fragment = Ok (j, candidates)
    /\ 0 <= j < len fixed
    /\ (j < len fixed - 1 ->
        exists fj, getitem fixed j = Ok fj
                   /\ starttime fragment <= starttime fj)
    /\ 0 <= Z.max 0 (j - 1) < Z.min (len fixed) (j + 2)
    /\ candidates
       = firstn (Z.to_nat (Z.min (len fixed) (j + 2) - Z.max 0 (j - 1)))
           (skipn (Z.to_nat (Z.max 0 (j - 1))) fixed)
    /\ 1 <= len candidates <= 3
    /\ ((forall g, In g fixed -> starttime fragment <= starttime g) ->
        j = 0 /\ candidates = firstn 2 fixed).
Proof.
  intros NE H. apply window_of_nonempty.
  apply map_m_length in H. intros ->. destruct delayed; [congruence|].
  discriminate H.
Qed.

Lemma window_bounds_witness :
  exists j candidates,
    Sync.window Sample.gapped (Sample.numbered 0) = Ok (j, candidates)
    /\ j = 0 /\ candidates = [Sample.numbered 1; Sample.numbered 2].
Proof.
  destruct (window_bounds Sample.gapped Sample.gapped (PInt 0)
              (Sample.numbered 0))
    as (j & c & W & _ & _ & _ & _ & _ & B).
  - discriminate.
  - vm_compute. reflexivity.
  - exists j, c. split; [exact W|]. apply B.
    intros g [<- | [<- | [<- | [<- | []]]]]; vm_compute; discriminate.
Defined.

(** ** [check_sequence] *)

Section CheckSequenceFacts.

Import CheckSequence.

(** Without [repair] the loop leaves the objects alone and lists the
    mismatches. *)
Lemma loop_no_repair : forall todo i seen wrong,
  i = Z.of_nat (List.length seen) + 1 ->
  loop false i seen todo wrong
  = (seen ++ todo, Ok (wrong ++ mismatches (List.length seen) todo)).
Proof.
  induction todo as [|f tl IH]; intros i seen wrong Hi; simpl.
  - now rewrite !app_nil_r.
  - subst i. destruct (seqnumber f =? Z.of_nat (List.length seen) + 1) eqn:E;
      simpl; rewrite IH by (rewrite length_app; simpl; lia);
      rewrite length_app, Nat.add_1_r, <- !app_assoc; reflexivity.
Qed.

(** With [repair] the first mismatch raises, before any object is changed. *)
Lemma loop_repair : forall todo i seen wrong,
  i = Z.of_nat (List.length seen) + 1 ->
  loop true i seen todo wrong
  = (seen ++ todo,
     match mismatches (List.length seen) todo with
     | [] => Ok wrong
     | _ :: _ => Raise AttributeError
     end).
Proof.
  induction todo as [|f tl IH]; intros i seen wrong Hi; simpl.
  - now rewrite app_nil_r.
  - subst i. destruct (seqnumber f =? Z.of_nat (List.length seen) + 1) eqn:E;
      simpl; [|reflexivity].
    rewrite IH by (rewrite length_app; simpl; lia).
    rewrite length_app, Nat.add_1_r, <- app_assoc. reflexivity.
Qed.

(** X1.  [check_sequence()] without [repair] changes no fragment and returns
    one entry per position whose stored number differs from the 1-based
    position, in stream order, with the stored and the expected number. *)
Lemma check_sequence_no_repair s :
  check_sequence s false = (s, Ok (mismatches 0 s)).
Proof. unfold check_sequence. now rewrite loop_no_repair. Qed.

(** X2.  [check_sequence(repair=True)] changes no fragment; it returns the
    empty list when every number matches its position and raises
    [AttributeError] otherwise. *)
Lemma check_sequence_repair s :
  check_sequence s true
  = (s, match mismatches 0 s with
        | [] => Ok []
        | _ :: _ => Raise AttributeError
        end).
Proof. unfold check_sequence. now rewrite loop_repair. Qed.

End CheckSequenceFacts.

(** C1.  On the stream numbered 1, 2, 4, 5, [check_sequence()] lists the
    fragments numbered 4 and 5 (expected 3 and 4); [check_sequence] with
    [repair] raises [AttributeError] at the first of them and changes no
    sequence number, so that a later [check_sequence()] lists the same two
    mismatches and not the empty list. *)
Theorem repair_raises_on_gap :
  CheckSequence.check_sequence Sample.gapped false
  = (Sample.gapped, Ok [(2%nat, 4, 3); (3%nat, 5, 4)])
  /\ CheckSequence.check_sequence Sample.gapped true
     = (Sample.gapped, Raise AttributeError)
  /\ snd (CheckSequence.check_sequence
            (fst (CheckSequence.check_sequence Sample.gapped true)) false)
     = Ok [(2%nat, 4, 3); (3%nat, 5, 4)].
Proof. repeat split. Qed.

(** ** [synchronize] and [select_closest] *)

Section SyncFacts.

Variable gp : Sync.oracle.

(** X3.  The guard of [_synchronize]: for an empty reference stream it
    returns the empty list, whatever the delayed stream and the delay
    function. *)
Lemma synchronize_inner_empty_reference delayed d :
  Sync._synchronize gp [] delayed d = Ok [].
Proof. reflexivity. Qed.

(** C2.  With the oracle present, [synchronize] raises [IndexError] when
    either stream is empty: [sstream1[-1]] and [sstream2[-1]] are read
    before [_synchronize], whose guard for an empty reference is never
    reached. *)
Theorem synchronize_empty_raises (S : SubtitleStream) :
  Sync.synchronize (Some gp) [] S = Raise IndexError
  /\ Sync.synchronize (Some gp) S [] = Raise IndexError.
Proof.
  split; unfold Sync.synchronize, Sync.partial_synchronization.
  - rewrite getitem_nil. reflexivity.
  - destruct (getitem S (-1)) eqn:G; cbn [Py.bind].
    + rewrite getitem_nil. reflexivity.
    + apply getitem_raise in G. now subst.
Qed.

(** C3.  With exactly one candidate the interval is [float(0)]: the
    division [time/interval] raises [ZeroDivisionError] ([ValueError] from
    [min] before it, when the oracle returns no ratio), and no time score is
    computed. *)
Theorem single_candidate_raises (ref f : Fragment) :
  Sync.select_closest gp ref [f]
  = match gp (Normalize.normalize (FragmentM.text ref))
             (Normalize.normalize (FragmentM.text f)) with
    | [] => Raise ValueError
    | _ :: _ => Raise ZeroDivisionError
    end.
Proof.
  unfold Sync.select_closest.
  rewrite !getitem_single by auto. cbn [Py.bind for_each].
  rewrite Z.sub_diag. unfold Sync.confidence_of.
  destruct (gp _ _) as [|x tl]; [reflexivity|].
  cbn [fmin Py.bind]. rewrite fdiv_by_zero. reflexivity.
Qed.

(** C6.  For an empty corrected stream the window is empty, and
    [select_closest] raises [IndexError] at [options[0]] instead of
    returning a no-match result. *)
Theorem empty_window_raises (ref : Fragment) :
  Sync.window [] ref = Ok (0, [])
  /\ Sync.select_closest gp ref [] = Raise IndexError.
Proof. split; reflexivity. Qed.

(** [_synchronize] with an empty delayed stream raises at the first
    reference fragment. *)
Lemma synchronize_inner_empty_delayed fragment rest d x :
  d fragment = Ok x ->
  Sync._synchronize gp (fragment :: rest) [] d = Raise IndexError.
Proof.
  intros H. unfold Sync._synchronize.
  replace (len (fragment :: rest) =? 0) with false
    by (symmetry; apply Z.eqb_neq; unfold len; simpl List.length; lia).
  cbn [for_each]. unfold Sync.match_fragment at 1. rewrite H.
  reflexivity.
Qed.

(** The confidence of the source is the one of the specification, step by
    step, exceptions included. *)
(** On one day the time of day is the time less the days before it. *)
Lemma u_on_day day t :
  t / Datetime.day_us = day -> _u t = t - day * Datetime.day_us.
Proof.
  unfold _u, Datetime.hour, Datetime.minute, Datetime.second,
    Datetime.microsecond.
  change Datetime.day_us with 86400000000.
  change Datetime.hour_us with 3600000000.
  change Datetime.minute_us with 60000000.
  change Datetime.second_us with 1000000.
  intros <-. Z.to_euclidean_division_equations. lia.
Qed.


End SyncFacts.



(** Two streams of one fragment each, through the public entry point: the
    single candidate makes the interval zero. *)
Lemma one_fragment_streams_raise :
  Sync.synchronize (Some Sample.alike)
    (Sample.starting_at 10) (Sample.starting_at 20)
  = Raise ZeroDivisionError.
Proof. vm_compute. reflexivity. Qed.

(** C4, as the code has it.  For two non-empty streams, [synchronize] takes as
    reference the stream whose last fragment starts EARLIER in the day
    ([sstream2] on a tie) and as delayed the other one, and the delay
    function is [float(start of x) * |totaldelay| / duration], where
    [totaldelay] is the difference of the two last start times and
    [duration] the last start time of the reference, in microseconds. *)
Theorem roles_by_last_start (sstream1 sstream2 : SubtitleStream) :
  sstream1 <> [] -> sstream2 <> [] ->
  exists reference delayed f last1 last2 lastr lastd,
    Sync.partial_synchronization sstream1 sstream2 = Ok (reference, delayed, f)
    /\ getitem sstream1 (-1) = Ok last1
    /\ getitem sstream2 (-1) = Ok last2
    /\ (reference, delayed)
       = (if _u (starttime last1) <? _u (starttime last2)
          then (sstream1, sstream2) else (sstream2, sstream1))
    /\ getitem reference (-1) = Ok lastr
    /\ getitem delayed (-1) = Ok lastd
    /\ _u (starttime lastr) <= _u (starttime lastd)
    /\ forall x,
         f x = fdiv (PrimFloat.mul
                       (float_of_int (_u (starttime x)))
                       (float_of_int
                          (Z.abs (_u (starttime last1) - _u (starttime last2)))))
                    (float_of_int (_u (starttime lastr))).
Proof.
  intros N1 N2.
  destruct (getitem_last_ok sstream1 N1) as (l1 & G1 & _).
  destruct (getitem_last_ok sstream2 N2) as (l2 & G2 & _).
  unfold Sync.partial_synchronization. rewrite G1, G2. cbn [Py.bind].
  replace (_u (starttime l1) - _u (starttime l2) <? 0)
    with (_u (starttime l1) <? _u (starttime l2))
    by (destruct (_u (starttime l1) <? _u (starttime l2)) eqn:E;
        symmetry; [apply Z.ltb_lt | apply Z.ltb_ge]; lia).
  destruct (_u (starttime l1) <? _u (starttime l2)) eqn:E; cbn [fst snd].
  - rewrite G1. cbn [Py.bind]. pose proof (proj1 (Z.ltb_lt _ _) E) as Lt.
    exists sstream1, sstream2. eexists. exists l1, l2, l1, l2.
    rewrite E.
    do 7 (split; [first [reflexivity | assumption | lia]|]).
    intros x. reflexivity.
  - rewrite G2. cbn [Py.bind]. pose proof (proj1 (Z.ltb_ge _ _) E) as Ge.
    exists sstream2, sstream1. eexists. exists l1, l2, l2, l1.
    rewrite E.
    do 7 (split; [first [reflexivity | assumption | lia]|]).
    intros x. reflexivity.
Qed.

Lemma roles_by_last_start_witness :
  exists reference delayed f,
    Sync.partial_synchronization
      (Sample.starting_at 10) (Sample.starting_at 20)
    = Ok (reference, delayed, f)
    /\ reference = Sample.starting_at 10
    /\ delayed = Sample.starting_at 20.
Proof.
  destruct (roles_by_last_start (Sample.starting_at 10)
              (Sample.starting_at 20))
    as (r & d & f & l1 & l2 & lr & ld & P & G1 & G2 & R & _).
  - discriminate.
  - discriminate.
  - exists r, d, f. split; [exact P|].
    injection G1 as <-. injection G2 as <-.
    vm_compute in R. injection R as -> ->. split; reflexivity.
Defined.

(** C4, as stated, fails: for a stream ending at second 10 and one ending
    at second 20 the reference is the first, whose last fragment starts
    earlier. *)
Lemma later_is_not_reference :
  ~ SyncSpec.later_is_reference
      (Sample.starting_at 10) (Sample.starting_at 20).
Proof.
  intros H.
  specialize (H (Sample.starting_at 10) (Sample.starting_at 20) _ _ _
                eq_refl eq_refl eq_refl).
  vm_compute in H. discriminate.
Qed.

(** ** [_parse] *)

Section ParseFacts.

Variable py_int : string -> option Z.

(** At stage 0 a line that is not blank and that [int] rejects raises. *)
Lemma parse_line_bad_number st raw :
  Parse.stage st = 0 ->
  Parse.strip raw <> EmptyString ->
  py_int (Parse.strip raw) = None ->
  Parse.parse_line py_int st raw
  = Raise (SRTParseException
             (Parse.not_a_sequence_number (Parse.strip raw))).
Proof.
  intros Hs Hn Hi. unfold Parse.parse_line.
  destruct (String.eqb (Parse.strip raw) EmptyString) eqn:E.
  - apply String.eqb_eq in E. contradiction.
  - cbn [Parse.stage]. rewrite Hs. cbn [Z.eqb]. rewrite Hi. reflexivity.
Qed.

(** C9.  When the lines before it parse and leave the parser expecting a
    sequence number (stage 0), a line that is not blank and is not an
    integer makes [_parse] raise [SRTParseException], whose message quotes
    that line as the parser reads it, that is without the white space
    around it (the line end included). *)
Theorem bad_sequence_number pre raw post st :
  for_each (Parse.parse_line py_int) pre Parse.initial = Ok st ->
  Parse.stage st = 0 ->
  Parse.strip raw <> EmptyString ->
  py_int (Parse.strip raw) = None ->
  Parse._parse py_int (pre ++ raw :: post)
  = Raise (SRTParseException
             ("'" ++ Parse.strip raw
                  ++ "' is not a valid sequence number")%string).
Proof.
  intros Hpre Hs Hn Hi. unfold Parse._parse.
  rewrite for_each_app, Hpre. cbn [Py.bind for_each].
  rewrite (parse_line_bad_number st raw Hs Hn Hi). reflexivity.
Qed.

End ParseFacts.

Lemma bad_sequence_number_witness :
  Parse._parse Parse.decimal_int Sample.srt_with_abc
  = Raise (SRTParseException "'abc' is not a valid sequence number").
Proof.
  refine (bad_sequence_number Parse.decimal_int
            (firstn 4 Sample.srt_with_abc)
            ("abc" ++ Sample.nl)%string
            (skipn 5 Sample.srt_with_abc) _ _ _ _ _).
  - vm_compute. reflexivity.
  - reflexivity.
  - vm_compute. discriminate.
  - vm_compute. reflexivity.
Defined.

(** ** [normalize] *)

Section NormalizeFacts.

Import Normalize NormalizeSpec.

Ltac each_char c :=
  destruct c as [[|] [|] [|] [|] [|] [|] [|] [|]]; vm_compute;
  try reflexivity; try discriminate; try tauto.

Lemma clean_lower c : clean c = true -> lower_char c = c.
Proof. each_char c. Qed.

Lemma clean_simplify c : clean c = true -> simplify_char c = c.
Proof. each_char c. Qed.

Lemma clean_not_lt c : clean c = true -> not_lt c = true.
Proof. each_char c. Qed.

Lemma clean_noise c : clean c = true -> is_noise c = is_blank c.
Proof. each_char c. Qed.

Lemma blank_noise c : is_blank c = true -> is_noise c = true.
Proof. each_char c. Qed.

Lemma blank_eq c : is_blank c = true -> c = " "%char.
Proof. each_char c. Qed.

Lemma quiet_clean c :
  is_noise c = false -> not_upper c = true -> clean c = true.
Proof. each_char c. Qed.

Lemma lowered_not_upper c : not_upper (simplify_char (lower_char c)) = true.
Proof. each_char c. Qed.

Lemma lowered_not_lt c :
  not_lt c = true -> not_lt (simplify_char (lower_char c)) = true.
Proof. each_char c. Qed.

Lemma all_chars_impl (p q : ascii -> bool) s :
  (forall c, p c = true -> q c = true) ->
  all_chars p s = true -> all_chars q s = true.
Proof.
  intros H. induction s as [|c tl IH]; simpl; [reflexivity|].
  rewrite !andb_true_iff. intros [Hc Ht]. auto.
Qed.

Lemma map_string_id (f : ascii -> ascii) (p : ascii -> bool) s :
  (forall c, p c = true -> f c = c) ->
  all_chars p s = true -> map_string f s = s.
Proof.
  intros H. induction s as [|c tl IH]; simpl; [reflexivity|].
  rewrite andb_true_iff. intros [Hc Ht]. now rewrite H, IH.
Qed.

Section Suffix.

Variable p : ascii -> bool.

Lemma tag_rest_all s rest :
  tag_rest s = Some rest -> all_chars p s = true -> all_chars p rest = true.
Proof.
  induction s as [|c tl IH]; simpl; [discriminate|].
  rewrite andb_true_iff.
  destruct (code c =? 62)%N; [intros [= <-] [_ H]; exact H|].
  destruct (code c =? 10)%N; [discriminate|].
  intros H [_ Ht]. auto.
Qed.

Lemma drop_noise_all s :
  all_chars p s = true -> all_chars p (drop_noise s) = true.
Proof.
  induction s as [|c tl IH]; simpl; [reflexivity|].
  destruct (is_noise c); [|simpl; tauto].
  rewrite andb_true_iff. intros [_ H]. auto.
Qed.

(** What follows a match is a suffix of the string. *)
Lemma match_at_all s rest :
  match_at s = Some rest -> all_chars p s = true -> all_chars p rest = true.
Proof.
  unfold match_at. destruct (match_tag s) as [r|] eqn:T.
  - intros [= <-]. unfold match_tag in T.
    destruct s as [|lt [|c1 tl]]; try discriminate.
    destruct ((code lt =? 60)%N && negb (code c1 =? 10)%N); [|discriminate].
    simpl. rewrite !andb_true_iff. intros (_ & _ & H).
    eapply tag_rest_all; eassumption.
  - destruct s as [|c tl]; simpl; [discriminate|].
    destruct (is_noise c); [|discriminate].
    intros [= <-]. rewrite andb_true_iff. intros [_ H].
    now apply drop_noise_all.
Qed.

End Suffix.

Lemma drop_noise_length s :
  (String.length (drop_noise s) <= String.length s)%nat.
Proof.
  induction s as [|c tl IH]; simpl; [lia|].
  destruct (is_noise c); simpl; lia.
Qed.

Lemma match_tag_no_lt s : all_chars not_lt s = true -> match_tag s = None.
Proof.
  destruct s as [|c [|c1 tl]]; try reflexivity. simpl.
  unfold not_lt. rewrite andb_true_iff, negb_true_iff. intros [-> _].
  reflexivity.
Qed.

Lemma drop_noise_starts s : starts_noise (drop_noise s) = false.
Proof.
  induction s as [|c tl IH]; simpl; [reflexivity|].
  destruct (is_noise c) eqn:E; [exact IH | simpl; exact E].
Qed.

Lemma drop_noise_quiet s : starts_noise s = false -> drop_noise s = s.
Proof. destruct s as [|c tl]; simpl; [reflexivity|]. now intros ->. Qed.

(** The substitution leaves only clean characters when no capital is left. *)
Lemma sub_loop_clean : forall n s,
  all_chars not_upper s = true -> all_chars clean (sub_loop n s) = true.
Proof.
  induction n as [|n IH]; intros s H; [reflexivity|].
  destruct s as [|c tl]; [reflexivity|]. simpl sub_loop.
  destruct (match_at (String c tl)) as [rest|] eqn:M.
  - simpl. apply IH. eapply match_at_all; eassumption.
  - simpl in H. apply andb_true_iff in H as [Hc Ht].
    simpl. rewrite IH by exact Ht. rewrite andb_true_r.
    apply quiet_clean; [|exact Hc].
    unfold match_at in M. destruct (match_tag (String c tl)); [discriminate|].
    simpl in M. destruct (is_noise c); [discriminate | reflexivity].
Qed.

(** Without [<] no two spaces of the output are adjacent. *)
Lemma sub_loop_single_spaces : forall n s,
  (String.length s <= n)%nat -> all_chars not_lt s = true ->
  no_double_space (sub_loop n s) = true
  /\ (starts_noise s = false -> starts_blank (sub_loop n s) = false).
Proof.
  induction n as [|n IH]; intros s L H.
  - simpl. split; [reflexivity|]. reflexivity.
  - destruct s as [|c tl]; [simpl; split; reflexivity|].
    simpl sub_loop. unfold match_at. rewrite (match_tag_no_lt _ H).
    simpl in H. apply andb_true_iff in H as [Hc Ht]. simpl in L.
    simpl match_noise. destruct (is_noise c) eqn:N.
    + destruct (IH (drop_noise tl)) as [A B].
      { pose proof (drop_noise_length tl). lia. }
      { now apply drop_noise_all. }
      split; [|simpl; rewrite N; discriminate].
      simpl. rewrite A, (B (drop_noise_starts tl)). reflexivity.
    + destruct (IH tl) as [A B]; [lia | exact Ht |].
      assert (Bc : is_blank c = false).
      { destruct (is_blank c) eqn:E; [|reflexivity].
        apply blank_noise in E. congruence. }
      split; [|intros _; simpl; exact Bc].
      simpl. rewrite A, Bc. reflexivity.
Qed.

(** A clean string with single spaces is left as it is. *)
Lemma sub_loop_fixed : forall n s,
  (String.length s <= n)%nat -> all_chars clean s = true ->
  no_double_space s = true -> sub_loop n s = s.
Proof.
  induction n as [|n IH]; intros s L C D.
  - destruct s; [reflexivity | simpl in L; lia].
  - destruct s as [|c tl]; [reflexivity|].
    simpl sub_loop. unfold match_at.
    rewrite (match_tag_no_lt (String c tl))
      by (eapply all_chars_impl; [apply clean_not_lt | exact C]).
    simpl in C, D, L. apply andb_true_iff in C as [Cc Ct].
    apply andb_true_iff in D as [Dc Dt].
    simpl match_noise. rewrite (clean_noise c Cc).
    destruct (is_blank c) eqn:B.
    + simpl in Dc. apply negb_true_iff in Dc.
      assert (Q : starts_noise tl = false).
      { destruct tl as [|c' tl']; [reflexivity|]. simpl in *.
        apply andb_true_iff in Ct as [Cc' _].
        rewrite (clean_noise c' Cc'). exact Dc. }
      rewrite (drop_noise_quiet tl Q), IH by (try lia; assumption).
      now rewrite (blank_eq c B).
    + rewrite IH by (try lia; assumption). reflexivity.
Qed.

(** [normalize] leaves only [[a-z0-9_]], the n with tilde, and spaces. *)
Lemma normalize_clean s : all_chars clean (normalize s) = true.
Proof.
  unfold normalize, re_sub. apply sub_loop_clean.
  induction s as [|c tl IH]; simpl; [reflexivity|].
  rewrite lowered_not_upper. exact IH.
Qed.

Lemma normalize_of_clean s :
  all_chars clean s = true -> normalize s = re_sub s.
Proof.
  intros C. unfold normalize.
  rewrite (map_string_id lower_char clean s clean_lower C).
  rewrite (map_string_id simplify_char clean s clean_simplify C).
  reflexivity.
Qed.

Lemma re_sub_single_spaces s :
  all_chars not_lt s = true -> no_double_space (re_sub s) = true.
Proof. intros H. now apply sub_loop_single_spaces. Qed.

Lemma normalize_fixed s :
  all_chars clean s = true -> no_double_space s = true -> normalize s = s.
Proof.
  intros C D. rewrite normalize_of_clean by exact C.
  now apply sub_loop_fixed.
Qed.

(** The second pass leaves single spaces only. *)
Lemma normalize_twice_single_spaces s :
  no_double_space (normalize (normalize s)) = true.
Proof.
  rewrite normalize_of_clean by apply normalize_clean.
  apply re_sub_single_spaces.
  eapply all_chars_impl; [apply clean_not_lt | apply normalize_clean].
Qed.

(** C10, as the code has it.  A second pass leaves [normalize(s)] unchanged exactly
    when [normalize(s)] holds no two adjacent spaces, which is the case for
    every [s] without the character [<]; in all cases the result of the
    second pass is a fixed point of [normalize]. *)
Theorem normalize_twice_fixed (s : string) :
  (normalize (normalize s) = normalize s
   <-> no_double_space (normalize s) = true)
  /\ (all_chars not_lt s = true -> normalize (normalize s) = normalize s)
  /\ normalize (normalize (normalize s)) = normalize (normalize s).
Proof.
  split; [split|split].
  - intros E. rewrite <- E. apply normalize_twice_single_spaces.
  - intros D. apply normalize_fixed; [apply normalize_clean | exact D].
  - intros H. apply normalize_fixed; [apply normalize_clean|].
    unfold normalize. apply re_sub_single_spaces.
    clear -H. induction s as [|c tl IH]; simpl in *; [reflexivity|].
    apply andb_true_iff in H as [Hc Ht].
    now rewrite lowered_not_lt, IH.
  - apply normalize_fixed; [apply normalize_clean|].
    apply normalize_twice_single_spaces.
Qed.

End NormalizeFacts.

(** C10, as stated, fails: the tag and the full stop of [<i>.] are two
    matches, each replaced by a space, and the second pass merges the two
    spaces into one. *)
Lemma normalize_not_idempotent :
  Normalize.normalize "<i>." = "  "%string
  /\ Normalize.normalize (Normalize.normalize "<i>.") = " "%string
  /\ Normalize.normalize (Normalize.normalize "<i>.")
     <> Normalize.normalize "<i>.".
Proof. repeat split. vm_compute. discriminate. Qed.

(** * Further properties *)

(** ** Times of day *)

(** [_u] is the time of day: the date does not count. *)
Lemma u_time_of_day t : _u t = t mod Datetime.day_us.
Proof.
  unfold _u, Datetime.hour, Datetime.minute, Datetime.second,
    Datetime.microsecond.
  change Datetime.day_us with 86400000000.
  change Datetime.hour_us with 3600000000.
  change Datetime.minute_us with 60000000.
  change Datetime.second_us with 1000000.
  Z.to_euclidean_division_equations. lia.
Qed.

Lemma u_range t : 0 <= _u t < Datetime.day_us.
Proof.
  rewrite u_time_of_day. apply Z.mod_pos_bound. reflexivity.
Qed.

(** What [datetime.datetime(1900, 1, 1, h, m, s, us)] is when it does not
    raise. *)
Lemma make_1900_value (h m s us : Z) (d : Datetime.t) :
  Datetime.make_1900 h m s us = Ok d ->
  d = ParseSpec.midnight_1900 + (((h * 60 + m) * 60 + s) * 1000000 + us)
  /\ 0 <= ((h * 60 + m) * 60 + s) * 1000000 + us < Datetime.day_us.
Proof.
  unfold Datetime.make_1900.
  destruct (negb _); [discriminate|].
  destruct (0 <=? h) eqn:H1; [|discriminate].
  destruct (h <? 24) eqn:H2; [|discriminate].
  destruct (0 <=? m) eqn:H3; [|discriminate].
  destruct (m <? 60) eqn:H4; [|discriminate].
  destruct (0 <=? s) eqn:H5; [|discriminate].
  destruct (s <? 60) eqn:H6; [|discriminate].
  destruct (0 <=? us) eqn:H7; [|discriminate].
  destruct (us <? 1000000) eqn:H8; [|discriminate].
  cbn [andb]. intros H.
  assert (E : d = (Datetime.ordinal_1900_01_01 - 1) * Datetime.day_us
                  + h * Datetime.hour_us + m * Datetime.minute_us
                  + s * Datetime.second_us + us) by congruence.
  subst d. clear H. unfold ParseSpec.midnight_1900.
  change Datetime.ordinal_1900_01_01 with 693596.
  change Datetime.day_us with 86400000000.
  change Datetime.hour_us with 3600000000.
  change Datetime.minute_us with 60000000.
  change Datetime.second_us with 1000000.
  lia.
Qed.

Lemma make_1900_in_range (h m s us : Z) :
  0 <= h < 24 -> 0 <= m < 60 -> 0 <= s < 60 -> 0 <= us < 1000000 ->
  Datetime.make_1900 h m s us
  = Ok ((Datetime.ordinal_1900_01_01 - 1) * Datetime.day_us
        + h * Datetime.hour_us + m * Datetime.minute_us
        + s * Datetime.second_us + us).
Proof.
  intros H M S U. unfold Datetime.make_1900, Datetime.fits_c_int.
  replace (negb _) with false
    by (symmetry; rewrite negb_false_iff, !andb_true_iff, !Z.leb_le; lia).
  replace (_ && _) with true
    by (symmetry; rewrite !andb_true_iff, !Z.leb_le, !Z.ltb_lt; lia).
  reflexivity.
Qed.

(** X4.  For the datetime that [datetime.datetime(1900, 1, 1, h, m, s, us)]
    builds, [_u] is [((h*60 + m)*60 + s)*1000000 + us]; the datetime is in
    range and on 1900-01-01. *)
Theorem u_of_parsed_time (h m s us : Z) (d : Datetime.t) :
  Datetime.make_1900 h m s us = Ok d ->
  _u d = ((h * 60 + m) * 60 + s) * 1000000 + us
  /\ Datetime.valid d
  /\ ParseSpec.midnight_1900 <= d < ParseSpec.midnight_1900 + Datetime.day_us.
Proof.
  intros H. apply make_1900_value in H as [-> R].
  rewrite u_time_of_day. unfold Datetime.valid, ParseSpec.midnight_1900 in *.
  change Datetime.max_us with (3652059 * 86400000000 - 1).
  change Datetime.ordinal_1900_01_01 with 693596.
  change Datetime.day_us with 86400000000 in *.
  split; [|lia]. Z.to_euclidean_division_equations. lia.
Qed.

Lemma u_of_parsed_time_witness :
  exists d, Datetime.make_1900 1 2 3 4000 = Ok d /\ _u d = 3723004000.
Proof.
  exists (Sample.at_1900 1 2 3 4). split; [reflexivity|].
  exact (proj1 (u_of_parsed_time 1 2 3 4000 _ eq_refl)).
Defined.

(** X5.  [Fragment.duration] is the difference of two times of day: it lies
    strictly between minus and plus 24 hours, is negative when the end is
    earlier in the day than the start, and is [endtime - starttime] when
    both are on the same day. *)
Theorem duration_bounds (f : Fragment) :
  - Datetime.day_us < FragmentM.duration f < Datetime.day_us
  /\ (_u (endtime f) < _u (starttime f) -> FragmentM.duration f < 0)
  /\ (starttime f / Datetime.day_us = endtime f / Datetime.day_us ->
      FragmentM.duration f = endtime f - starttime f).
Proof.
  unfold FragmentM.duration. cbv zeta.
  pose proof (u_range (starttime f)). pose proof (u_range (endtime f)).
  split; [lia|]. split; [lia|].
  rewrite !u_time_of_day. change Datetime.day_us with 86400000000.
  intros E. Z.to_euclidean_division_equations. lia.
Qed.

(** ** More on [shift] *)

(** Any shift that succeeds, by an integer or a float, keeps the number
    and the text and moves both times by one amount. *)
Lemma fragment_shift_ok f n f' :
  FragmentM.shift f n = Ok f' ->
  exists delta,
    seqnumber f' = seqnumber f /\ textlines f' = textlines f
    /\ starttime f' = starttime f + delta /\ endtime f' = endtime f + delta
    /\ FragmentM.valid f'.
Proof.
  unfold FragmentM.shift. intros H.
  apply bind_ok in H as (delta & _ & H).
  destruct (num_ltb0 n);
    apply bind_ok in H as (s & Hs & H);
    apply bind_ok in H as (e & He & H);
    injection H as <-;
    apply checked_ok in Hs as [-> Vs]; apply checked_ok in He as [-> Ve];
    [exists (- delta) | exists delta];
    cbn [seqnumber textlines starttime endtime];
    unfold FragmentM.valid; cbn [starttime endtime];
    repeat split; try lia; try apply Vs; try apply Ve.
Qed.

Lemma map_m_pointwise {A B} (f : A -> result B) (R : A -> B -> Prop) l :
  (forall x y, f x = Ok y -> R x y) ->
  forall l', map_m f l = Ok l' -> Forall2 R l l'.
Proof.
  intros HR. induction l as [|x tl IH]; intros l' H; simpl in H.
  - injection H as <-. constructor.
  - apply bind_ok in H as (y & Hy & H). apply bind_ok in H as (ys & Hys & H).
    injection H as <-. constructor; auto.
Qed.

Lemma map_m_total {A B} (f : A -> result B) (g : A -> B) l :
  (forall x, In x l -> f x = Ok (g x)) -> map_m f l = Ok (map g l).
Proof.
  induction l as [|x tl IH]; intros H; simpl; [reflexivity|].
  rewrite (H x (or_introl eq_refl)). simpl.
  rewrite IH by (intros y Hy; apply H; now right). reflexivity.
Qed.

Lemma map_m_raise {A B} (f : A -> result B) (e : exn) l x :
  (forall y e', f y = Raise e' -> e' = e) ->
  In x l -> f x = Raise e -> map_m f l = Raise e.
Proof.
  intros U. induction l as [|y tl IH]; intros I H; [destruct I|].
  simpl. destruct (f y) as [b|e'] eqn:F.
  - destruct I as [-> | I]; [congruence|].
    simpl. rewrite (IH I H). reflexivity.
  - simpl. f_equal. eauto.
Qed.

Lemma Forall2_map_eq {A B C} (g : A -> C) (h : B -> C) l l' :
  Forall2 (fun x y => h y = g x) l l' -> map h l' = map g l.
Proof. induction 1; simpl; congruence. Qed.

(** The fragments of a shifted stream, one by one. *)
Lemma stream_shift_pointwise s n s' :
  Stream.shift s n = Ok s' ->
  Forall2 (fun x y => seqnumber y = seqnumber x
                      /\ textlines y = textlines x /\ FragmentM.valid y)
    s s'.
Proof.
  apply map_m_pointwise. intros x y H.
  apply fragment_shift_ok in H as (d & A & B & _ & _ & V).
  split; [exact A | split; [exact B | exact V]].
Qed.

(** X6.  A shift that succeeds, by an integer or a float, keeps the number
    of fragments, their sequence numbers and their text lines, hence
    [all_script()], and every fragment of the result holds datetimes in
    range. *)
Theorem stream_shift_frame (s s' : SubtitleStream) (n : num) :
  Stream.shift s n = Ok s' ->
  List.length s' = List.length s
  /\ map seqnumber s' = map seqnumber s
  /\ map textlines s' = map textlines s
  /\ StreamOps.all_script s' = StreamOps.all_script s
  /\ Forall FragmentM.valid s'.
Proof.
  intros H. pose proof (stream_shift_pointwise s n s' H) as P.
  unfold Stream.shift in H. pose proof (map_m_length _ _ _ H) as L.
  assert (T : map textlines s' = map textlines s).
  { apply Forall2_map_eq. eapply Forall2_impl; [|exact P].
    intros x y (_ & B & _). exact B. }
  split; [exact L|]. split.
  { apply Forall2_map_eq. eapply Forall2_impl; [|exact P].
    intros x y (A & _). exact A. }
  split; [exact T|]. split.
  - unfold StreamOps.all_script. f_equal. unfold FragmentM.text.
    rewrite <- !(map_map textlines). now rewrite T.
  - clear -P. induction P as [|x y l l' (_ & _ & V) _ IH]; constructor;
      assumption.
Qed.

Lemma stream_shift_frame_witness :
  exists s', Stream.shift Sample.gapped (PFloat 1500000.5) = Ok s'
             /\ map seqnumber s' = [1; 2; 4; 5]
             /\ map starttime s'
                = map (fun f => starttime f + 1500001) Sample.gapped.
Proof.
  eexists. split; [vm_compute; reflexivity|].
  split; [|vm_compute; reflexivity].
  refine (proj1 (proj2 (stream_shift_frame Sample.gapped _
                          (PFloat 1500000.5) _))).
  vm_compute. reflexivity.
Defined.

Lemma moved_back f a : moved (moved f a) (- a) = f.
Proof.
  destruct f as [n s e t]. unfold moved. simpl. f_equal; lia.
Qed.

(** X7.  For a stream of fragments whose times are datetimes, a shift by the
    integer [a] that succeeds is undone by the shift by [-a]: it succeeds
    and gives the original stream back. *)
Theorem shift_inverse (s s1 : SubtitleStream) (a : Z) :
  Forall FragmentM.valid s ->
  Stream.shift s (PInt a) = Ok s1 ->
  Stream.shift s1 (PInt (- a)) = Ok s.
Proof.
  unfold Stream.shift. revert s1.
  induction s as [|f s IH]; intros s1 V H; simpl in H.
  - injection H as <-. reflexivity.
  - apply bind_ok in H as (f1 & Hf & H). apply bind_ok in H as (t1 & Ht & H).
    injection H as <-. inversion V as [|? ? Vf Vs]; subst.
    apply fragment_shift_int in Hf as [-> V1].
    simpl. rewrite fragment_shift_int_valid
      by (rewrite ?moved_back; assumption).
    rewrite moved_back. simpl. rewrite (IH t1 Vs Ht). reflexivity.
Qed.

Lemma shift_inverse_witness :
  Stream.shift (map (fun f => moved f 1000000) Sample.gapped)
    (PInt (- 1000000))
  = Ok Sample.gapped.
Proof.
  apply (shift_inverse Sample.gapped _ 1000000).
  - exact gapped_valid.
  - vm_compute. reflexivity.
Defined.

(** X8.  [Fragment.shift] never wraps around: for a fragment whose times are
    datetimes and an integer [a] that would move the start or the end
    before [datetime.min] or after [datetime.max], it raises
    [OverflowError]. *)
Theorem shift_out_of_range (f : Fragment) (a : Z) :
  FragmentM.valid f ->
  ~ FragmentM.valid (moved f a) ->
  FragmentM.shift f (PInt a) = Raise OverflowError.
Proof.
  intros V NV.
  destruct (FragmentM.shift f (PInt a)) as [f'|e] eqn:H.
  - apply fragment_shift_int in H as [-> V']. contradiction.
  - f_equal. unfold FragmentM.shift in H.
    unfold Datetime.timedelta_microseconds in H. cbn [num_abs Py.bind] in H.
    destruct (Datetime.max_delta_days <? Z.abs a / Datetime.day_us);
      [now injection H as <-|].
    cbn [Py.bind num_ltb0] in H. unfold Datetime.add, Datetime.sub in H.
    destruct (a <? 0).
    + destruct (Datetime.checked (starttime f - Z.abs a)) eqn:C1.
      * cbn [Py.bind] in H.
        destruct (Datetime.checked (endtime f - Z.abs a)) eqn:C2;
          [discriminate|].
        cbn [Py.bind] in H. injection H as <-.
        unfold Datetime.checked in C2.
        destruct (_ && _); [discriminate | now injection C2 as <-].
      * cbn [Py.bind] in H. injection H as <-.
        unfold Datetime.checked in C1.
        destruct (_ && _); [discriminate | now injection C1 as <-].
    + destruct (Datetime.checked (starttime f + Z.abs a)) eqn:C1.
      * cbn [Py.bind] in H.
        destruct (Datetime.checked (endtime f + Z.abs a)) eqn:C2;
          [discriminate|].
        cbn [Py.bind] in H. injection H as <-.
        unfold Datetime.checked in C2.
        destruct (_ && _); [discriminate | now injection C2 as <-].
      * cbn [Py.bind] in H. injection H as <-.
        unfold Datetime.checked in C1.
        destruct (_ && _); [discriminate | now injection C1 as <-].
Qed.

Lemma shift_out_of_range_witness :
  FragmentM.shift (Sample.numbered 1) (PInt (- 99999999999999999))
  = Raise OverflowError.
Proof.
  apply shift_out_of_range.
  - split; vm_compute; split; discriminate.
  - intros [[H _] _]. vm_compute in H. apply H. reflexivity.
Defined.

(** X9.  When [shift_to_zero()] succeeds, the stream is not empty, the
    result has as many fragments, and its first fragment starts at the
    midnight before the start of the first fragment: its [_u] is 0. *)
Theorem shift_to_zero_first (s s' : SubtitleStream) :
  Stream.shift_to_zero s = Ok s' ->
  exists first first',
    getitem s 0 = Ok first /\ getitem s' 0 = Ok first'
    /\ starttime first' = starttime first - _u (starttime first)
    /\ _u (starttime first') = 0
    /\ List.length s' = List.length s.
Proof.
  unfold Stream.shift_to_zero. intros H.
  apply bind_ok in H as (first & G & H).
  pose proof (map_m_length _ _ _ H) as L.
  destruct s as [|f tl]; [rewrite getitem_nil in G; discriminate|].
  assert (first = f) by (cbv in G; congruence). subst first.
  unfold Stream.shift in H. simpl in H.
  apply bind_ok in H as (f' & Hf & H). apply bind_ok in H as (tl' & _ & H).
  injection H as <-. apply fragment_shift_int in Hf as [-> _].
  exists f, (moved f (- _u (starttime f))).
  split; [exact G|]. split; [reflexivity|].
  unfold moved; cbn [starttime]. split; [lia|]. split; [|exact L].
  rewrite !u_time_of_day. change Datetime.day_us with 86400000000.
  Z.to_euclidean_division_equations. lia.
Qed.

Lemma shift_to_zero_first_witness :
  exists s' first',
    Stream.shift_to_zero Sample.gapped = Ok s'
    /\ getitem s' 0 = Ok first' /\ _u (starttime first') = 0.
Proof.
  destruct (shift_to_zero_first Sample.gapped
              (map (fun f => moved f (- 1000000)) Sample.gapped))
    as (f & f' & _ & G & _ & U & _).
  - vm_compute. reflexivity.
  - eexists. exists f'. split; [vm_compute; reflexivity|]. split; assumption.
Defined.

(** ** The text of a fragment *)

Lemma append_empty_r s : (s ++ "")%string = s.
Proof. induction s as [|c tl IH]; simpl; [reflexivity | now rewrite IH]. Qed.

Lemma append_assoc_s (a b c : string) :
  ((a ++ b) ++ c)%string = (a ++ (b ++ c))%string.
Proof. induction a as [|x tl IH]; simpl; [reflexivity | now rewrite IH]. Qed.

Lemma substring_all s : String.substring 0 (String.length s) s = s.
Proof. induction s as [|c tl IH]; simpl; [reflexivity | now rewrite IH]. Qed.

Lemma split_loop_nonempty fuel sep s cur :
  Parse.split_loop fuel sep s cur <> [].
Proof.
  revert s cur. induction fuel as [|n IH]; intros s cur; simpl; [discriminate|].
  destruct s as [|c tl]; [discriminate|].
  destruct (String.prefix sep (String c tl)); [discriminate | apply IH].
Qed.

Lemma concat_cons sep x l :
  l <> [] ->
  String.concat sep (x :: l) = (x ++ sep ++ String.concat sep l)%string.
Proof. destruct l; [congruence | reflexivity]. Qed.

(** Joining the pieces of a split on one character gives the string back. *)
Lemma join_split_char c : forall fuel s cur,
  (String.length s < fuel)%nat ->
  String.concat (String c "") (Parse.split_loop fuel (String c "") s cur)
  = (cur ++ s)%string.
Proof.
  induction fuel as [|n IH]; intros s cur L; [lia|].
  destruct s as [|c' tl].
  - simpl. now rewrite append_empty_r.
  - cbn [Parse.split_loop String.prefix]. simpl in L.
    destruct (ascii_dec c c') as [<- | NE].
    + cbn [String.prefix String.length Nat.sub]. rewrite Nat.sub_0_r.
      change (String.substring 1 (String.length tl) (String c tl))
        with (String.substring 0 (String.length tl) tl).
      rewrite substring_all.
      replace (String.prefix "" tl) with true by (now destruct tl).
      rewrite concat_cons by apply split_loop_nonempty.
      rewrite IH by lia. reflexivity.
    + cbn [String.prefix]. destruct (ascii_dec c c'); [contradiction|].
      rewrite IH by lia. rewrite append_assoc_s. reflexivity.
Qed.

(** X10.  Setting the text of a fragment and reading it back gives the
    value that was set, whatever line breaks it holds; the sequence number
    and the times are not touched. *)
Theorem text_set_get (f : Fragment) (value : string) :
  FragmentM.text (FragmentOps.set_text f value) = value
  /\ seqnumber (FragmentOps.set_text f value) = seqnumber f
  /\ starttime (FragmentOps.set_text f value) = starttime f
  /\ endtime (FragmentOps.set_text f value) = endtime f.
Proof.
  repeat split. unfold FragmentM.text, FragmentOps.set_text, Parse.split.
  cbn [textlines].
  change (String (ascii_of_nat 10) "") with (String Normalize.newline "").
  now rewrite join_split_char by lia.
Qed.

(** ** More on [_parse] *)

Lemma rstrip_idem s : Parse.rstrip (Parse.rstrip s) = Parse.rstrip s.
Proof.
  induction s as [|c tl IH]; [reflexivity|].
  cbn [Parse.rstrip]. destruct (Parse.rstrip tl) as [|d r] eqn:R.
  - destruct (Parse.is_space c) eqn:S; [reflexivity|].
    cbn [Parse.rstrip]. now rewrite S.
  - cbn [Parse.rstrip]. cbn [Parse.rstrip] in IH.
    change (match Parse.rstrip r with
            | EmptyString =>
                if Parse.is_space d then EmptyString
                else String d EmptyString
            | String a s => String d (String a s)
            end)
      with (Parse.rstrip (String d r)) in *.
    now rewrite IH.
Qed.

Lemma rstrip_head c tl :
  Parse.is_space c = false ->
  exists r, Parse.rstrip (String c tl) = String c r.
Proof.
  intros S. cbn [Parse.rstrip]. destruct (Parse.rstrip tl).
  - rewrite S. eauto.
  - eauto.
Qed.

Lemma lstrip_head s :
  Parse.lstrip s = EmptyString
  \/ exists c tl, Parse.lstrip s = String c tl /\ Parse.is_space c = false.
Proof.
  induction s as [|c tl IH]; [now left|].
  cbn [Parse.lstrip]. destruct (Parse.is_space c) eqn:S; [exact IH|].
  right. eauto.
Qed.

(** A stripped line has no white space left to strip. *)
Lemma strip_idem s : Parse.strip (Parse.strip s) = Parse.strip s.
Proof.
  unfold Parse.strip. destruct (lstrip_head s) as [-> | (c & tl & -> & S)].
  - reflexivity.
  - destruct (rstrip_head c tl S) as (r & E). rewrite E.
    cbn [Parse.lstrip]. rewrite S. rewrite <- E. apply rstrip_idem.
Qed.

Lemma make_1900_ms h m s ms d :
  Datetime.make_1900 h m s (ms * 1000) = Ok d -> ParseSpec.on_1900 d.
Proof.
  intros H. apply make_1900_value in H as [-> R].
  unfold ParseSpec.on_1900, ParseSpec.midnight_1900 in *.
  change Datetime.ordinal_1900_01_01 with 693596.
  change Datetime.day_us with 86400000000 in *.
  split; [lia|]. Z.to_euclidean_division_equations. lia.
Qed.

Lemma on_1900_bounds t :
  ParseSpec.on_1900 t ->
  59926608000000000 <= t < 59926694400000000.
Proof. intros [H _]. exact H. Qed.

Lemma on_1900_u t :
  ParseSpec.on_1900 t -> _u t = t - ParseSpec.midnight_1900.
Proof.
  intros H. apply on_1900_bounds in H. rewrite u_time_of_day.
  unfold ParseSpec.midnight_1900.
  change Datetime.ordinal_1900_01_01 with 693596.
  change Datetime.day_us with 86400000000.
  Z.to_euclidean_division_equations. lia.
Qed.

Lemma getitem_app_last {A} (l : list A) (x : A) :
  getitem (l ++ [x]) (-1) = Ok x.
Proof.
  unfold getitem, len. rewrite length_app. cbn [List.length].
  change (-1 <? 0) with true. cbv iota.
  destruct (-1 + Z.of_nat (List.length l + 1) <? 0) eqn:E1;
    [apply Z.ltb_lt in E1; lia|].
  destruct (Z.of_nat (List.length l + 1)
            <=? -1 + Z.of_nat (List.length l + 1)) eqn:E2;
    [apply Z.leb_le in E2; lia|].
  cbn [orb].
  replace (Z.to_nat (-1 + Z.of_nat (List.length l + 1)))
    with (List.length l) by lia.
  rewrite nth_error_app2, Nat.sub_diag by lia. reflexivity.
Qed.

Lemma current_fragment_fields st f :
  Parse.current_fragment st = Ok f ->
  Parse.v_seqnumber st = Some (seqnumber f)
  /\ Parse.v_starttime st = Some (starttime f)
  /\ Parse.v_endtime st = Some (endtime f)
  /\ Parse.v_textlines st = Some (textlines f).
Proof.
  unfold Parse.current_fragment.
  destruct (Parse.v_seqnumber st); [|discriminate].
  destruct (Parse.v_starttime st); [|discriminate].
  destruct (Parse.v_endtime st); [|discriminate].
  destruct (Parse.v_textlines st); [|discriminate].
  cbn. intros H. injection H as <-. now repeat split.
Qed.

Section ParseMore.

Import ParseSpec.

Variable py_int : string -> option Z.

Lemma parse_line_blank st raw :
  Parse.strip raw = EmptyString ->
  Parse.parse_line py_int st raw
  = if negb (Parse.ignoring st) then
      f <- Parse.current_fragment st ;;
      Ok (Parse.mkState 0 true (Parse.fragmentlist st ++ [f])
            (Parse.v_seqnumber st) (Parse.v_starttime st)
            (Parse.v_endtime st) (Parse.v_textlines st))
    else Ok st.
Proof. intros E. unfold Parse.parse_line. rewrite E. reflexivity. Qed.

Lemma parse_line_blank_idle st raw :
  Parse.strip raw = EmptyString -> Parse.ignoring st = true ->
  Parse.parse_line py_int st raw = Ok st.
Proof. intros E I. rewrite parse_line_blank by exact E. now rewrite I. Qed.

Lemma parse_line_blank_result st raw st' :
  Parse.strip raw = EmptyString ->
  Parse.parse_line py_int st raw = Ok st' -> Parse.ignoring st' = true.
Proof.
  intros E H. rewrite parse_line_blank in H by exact E.
  destruct (Parse.ignoring st) eqn:I; cbn [negb] in H.
  - now injection H as <-.
  - apply bind_ok in H as (f & _ & H). now injection H as <-.
Qed.

(** A line that is not blank, read when a sequence number is expected. *)
Lemma parse_line_stage0 st raw n :
  Parse.stage st = 0 -> Parse.strip raw <> EmptyString ->
  py_int (Parse.strip raw) = Some n ->
  Parse.parse_line py_int st raw
  = Ok (Parse.mkState 1 false (Parse.fragmentlist st) (Some n)
          (Parse.v_starttime st) (Parse.v_endtime st)
          (Parse.v_textlines st)).
Proof.
  intros S B N. unfold Parse.parse_line.
  apply String.eqb_neq in B. rewrite B.
  cbn [Parse.stage Parse.fragmentlist Parse.v_seqnumber Parse.v_starttime
       Parse.v_endtime Parse.v_textlines Parse.ignoring].
  rewrite S, N. reflexivity.
Qed.

(** A line that is not blank, read when the period is expected. *)
Lemma parse_line_stage1 st raw :
  Parse.stage st = 1 -> Parse.strip raw <> EmptyString ->
  Parse.parse_line py_int st raw
  = (st' <-
       match map Parse.strip (Parse.split (Parse.strip raw) "-->") with
       | [p0; p1] =>
           starttime <- Parse.parse_time py_int (Parse.strip raw) p0 ;;
           endtime <- Parse.parse_time py_int (Parse.strip raw) p1 ;;
           Ok (Parse.mkState 1 false (Parse.fragmentlist st)
                 (Parse.v_seqnumber st) (Some starttime) (Some endtime)
                 (Parse.v_textlines st))
       | _ => Raise (SRTParseException
                       (Parse.not_a_period (Parse.strip raw)))
       end ;;
     Ok (Parse.mkState (Parse.stage st' + 1) (Parse.ignoring st')
           (Parse.fragmentlist st') (Parse.v_seqnumber st')
           (Parse.v_starttime st') (Parse.v_endtime st')
           (Parse.v_textlines st'))).
Proof.
  intros S B. unfold Parse.parse_line.
  apply String.eqb_neq in B. rewrite B.
  cbn [Parse.stage Parse.fragmentlist Parse.v_seqnumber Parse.v_starttime
       Parse.v_endtime Parse.v_textlines Parse.ignoring].
  rewrite S. reflexivity.
Qed.

Lemma blank_lines_idle pre st :
  Forall (fun l => Parse.strip l = EmptyString) pre ->
  Parse.ignoring st = true ->
  for_each (Parse.parse_line py_int) pre st = Ok st.
Proof.
  induction 1 as [|l tl B _ IH]; intros I; simpl; [reflexivity|].
  rewrite parse_line_blank_idle by assumption. simpl. now apply IH.
Qed.

Lemma parse_trailing_blank (lines : list string) (blank : string) :
  Parse.strip blank = EmptyString ->
  Parse._parse py_int (lines ++ [blank]) = Parse._parse py_int lines.
Proof.
  intros E. unfold Parse._parse. rewrite for_each_app.
  destruct (for_each (Parse.parse_line py_int) lines Parse.initial) as [st|e];
    [|reflexivity].
  cbn [Py.bind for_each]. rewrite parse_line_blank by exact E.
  destruct (Parse.ignoring st) eqn:I; cbn [negb Py.bind].
  - now rewrite I.
  - destruct (Parse.current_fragment st); reflexivity.
Qed.

(** X11.  Blank lines (white space only) at the end of the input change
    nothing: the block that is open at the end of the input is closed as a
    blank line closes it, with the same result or the same exception. *)
Theorem trailing_blank_line (lines blanks : list string) :
  Forall (fun l => Parse.strip l = EmptyString) blanks ->
  Parse._parse py_int (lines ++ blanks) = Parse._parse py_int lines.
Proof.
  intros B. revert lines.
  induction B as [|b tl Hb _ IH]; intros lines.
  - now rewrite app_nil_r.
  - replace (lines ++ b :: tl) with ((lines ++ [b]) ++ tl)
      by (now rewrite <- app_assoc).
    rewrite IH. now apply parse_trailing_blank.
Qed.

(** X12.  Blank lines where no block is open are skipped: one at the start
    of the input, and the second of two consecutive ones anywhere, can be
    removed without changing the result or the exception. *)
Theorem repeated_blank_lines (pre post : list string) (b1 b2 : string) :
  Parse.strip b1 = EmptyString -> Parse.strip b2 = EmptyString ->
  Parse._parse py_int (b1 :: post) = Parse._parse py_int post
  /\ Parse._parse py_int (pre ++ b1 :: b2 :: post)
     = Parse._parse py_int (pre ++ b1 :: post).
Proof.
  intros E1 E2. split.
  - unfold Parse._parse. cbn [for_each].
    rewrite parse_line_blank_idle by (exact E1 || reflexivity). reflexivity.
  - unfold Parse._parse. rewrite !for_each_app.
    destruct (for_each (Parse.parse_line py_int) pre Parse.initial) as [st|e];
      [|reflexivity].
    cbn [Py.bind for_each].
    destruct (Parse.parse_line py_int st b1) as [st1|e] eqn:P1; [|reflexivity].
    cbn [Py.bind].
    rewrite (parse_line_blank_idle st1 b2 E2
               (parse_line_blank_result st b1 st1 E1 P1)).
    reflexivity.
Qed.

Lemma parse_time_on_1900 line side d :
  Parse.parse_time py_int line side = Ok d -> on_1900 d.
Proof.
  unfold Parse.parse_time. intros H.
  apply bind_ok in H as (tuple & _ & H).
  destruct tuple as [|h [|m [|s [|ms [|]]]]]; try discriminate.
  eapply make_1900_ms; eassumption.
Qed.

Lemma current_fragment_good st f :
  state_ok st -> Parse.current_fragment st = Ok f -> good_fragment f.
Proof.
  intros (_ & S & E & T) H.
  apply current_fragment_fields in H as (_ & Hs & He & Ht).
  rewrite Hs in S. rewrite He in E. rewrite Ht in T. cbn in S, E, T.
  unfold good_fragment. tauto.
Qed.

(** The body of the loop keeps the invariant. *)
Lemma parse_line_ok st raw st' :
  state_ok st -> Parse.parse_line py_int st raw = Ok st' -> state_ok st'.
Proof.
  intros I H. unfold Parse.parse_line in H.
  destruct (String.eqb (Parse.strip raw) EmptyString) eqn:B.
  - destruct (Parse.ignoring st); cbn [negb] in H.
    + now injection H as <-.
    + apply bind_ok in H as (f & Hf & H). injection H as <-.
      pose proof (current_fragment_good st f I Hf) as G.
      destruct I as (L & S & E & T).
      unfold state_ok. cbn. repeat split; try assumption; try apply T.
      apply Forall_app. split; [exact L | now constructor].
  - apply String.eqb_neq in B.
    apply bind_ok in H as (st1 & H1 & H). injection H as <-.
    destruct I as (L & S & E & T). cbn [Parse.stage Parse.fragmentlist
      Parse.v_seqnumber Parse.v_starttime Parse.v_endtime Parse.v_textlines
      Parse.ignoring] in H1.
    assert (G : good_line (Parse.strip raw))
      by (split; [exact B | apply strip_idem]).
    destruct (0 =? Parse.stage st).
    { destruct (py_int (Parse.strip raw)); [|discriminate].
      injection H1 as <-. unfold state_ok. cbn. tauto. }
    destruct (1 =? Parse.stage st).
    { destruct (map Parse.strip (Parse.split (Parse.strip raw) "-->"))
        as [|p0 [|p1 [|]]]; try discriminate.
      apply bind_ok in H1 as (s & Hs & H1).
      apply bind_ok in H1 as (e & He & H1). injection H1 as <-.
      apply parse_time_on_1900 in Hs, He.
      unfold state_ok. cbn. tauto. }
    destruct (2 =? Parse.stage st).
    { injection H1 as <-. unfold state_ok. cbn.
      split; [exact L|]. split; [exact S|]. split; [exact E|].
      split; [discriminate|]. constructor; [exact G | constructor]. }
    apply bind_ok in H1 as (tl & Ht & H1). injection H1 as <-.
    destruct (Parse.v_textlines st) as [l|]; [|discriminate].
    cbn in Ht. injection Ht as <-. cbn in T. destruct T as [Tn Tf].
    unfold state_ok. cbn.
    split; [exact L|]. split; [exact S|]. split; [exact E|]. split.
    + destruct l; discriminate.
    + apply Forall_app. split; [exact Tf | now constructor].
Qed.

Lemma for_each_parse_ok lines : forall st st',
  state_ok st ->
  for_each (Parse.parse_line py_int) lines st = Ok st' -> state_ok st'.
Proof.
  induction lines as [|l tl IH]; intros st st' I H; simpl in H.
  - now injection H as <-.
  - apply bind_ok in H as (st1 & H1 & H). eapply IH; [|exact H].
    eapply parse_line_ok; eassumption.
Qed.

Lemma initial_ok : state_ok Parse.initial.
Proof. unfold state_ok. cbn. repeat split. constructor. Qed.

Lemma parse_good (lines : list string) (frags : list Fragment) :
  Parse._parse py_int lines = Ok frags -> Forall good_fragment frags.
Proof.
  unfold Parse._parse. intros H.
  apply bind_ok in H as (st & Hst & H).
  pose proof (for_each_parse_ok lines _ _ initial_ok Hst) as I.
  destruct (Parse.ignoring st); cbn [negb] in H.
  - injection H as <-. apply I.
  - apply bind_ok in H as (f & Hf & H). injection H as <-.
    apply Forall_app. split; [apply I|].
    constructor; [|constructor]. eapply current_fragment_good; eassumption.
Qed.

(** X13.  Every fragment that [_parse] returns has both times on
    1900-01-01 with whole milliseconds, at least one text line, and text
    lines that are not empty and have no white space around them; its
    times are datetimes and its duration is [endtime - starttime]. *)
Theorem parsed_fragments_good (lines : list string) (frags : list Fragment) :
  Parse._parse py_int lines = Ok frags ->
  Forall (fun f => good_fragment f /\ FragmentM.valid f
                   /\ FragmentM.duration f = endtime f - starttime f) frags.
Proof.
  intros H. apply parse_good in H.
  eapply Forall_impl; [|exact H]. intros f G. split; [exact G|].
  destruct G as (S & E & _).
  unfold FragmentM.duration. cbv zeta.
  rewrite (on_1900_u _ S), (on_1900_u _ E).
  apply on_1900_bounds in S, E.
  unfold FragmentM.valid, Datetime.valid.
  change Datetime.max_us with 315537897599999999. lia.
Qed.

(** A stream on 1900-01-01 can be shifted back by any time of day. *)
Lemma shift_back_on_1900 (s : SubtitleStream) (u : Z) :
  Forall good_fragment s -> 0 <= u < Datetime.day_us ->
  Stream.shift s (PInt (- u)) = Ok (map (fun f => moved f (- u)) s).
Proof.
  intros G U. unfold Stream.shift. apply map_m_total.
  intros f Hf. rewrite Forall_forall in G. destruct (G f Hf) as (S & E & _).
  apply on_1900_bounds in S, E.
  change Datetime.day_us with 86400000000 in U.
  apply fragment_shift_int_valid;
    unfold FragmentM.valid, Datetime.valid, moved; cbn [starttime endtime];
    change Datetime.max_us with 315537897599999999; lia.
Qed.

(** X14.  On a stream that [_parse] returned and that is not empty,
    [shift_to_zero()] does not raise: every fragment is moved back by the
    time of day of the first start, and the first fragment then starts at
    midnight of 1900-01-01. *)
Theorem shift_to_zero_parsed (lines : list string) (s : SubtitleStream) :
  Parse._parse py_int lines = Ok s -> s <> [] ->
  exists first s',
    getitem s 0 = Ok first
    /\ Stream.shift_to_zero s = Ok s'
    /\ s' = map (fun f => moved f (- _u (starttime first))) s
    /\ map starttime (firstn 1 s') = [midnight_1900].
Proof.
  intros P NE. apply parse_good in P.
  destruct s as [|f tl]; [congruence|].
  exists f. eexists. split; [reflexivity|].
  unfold Stream.shift_to_zero.
  replace (getitem (f :: tl) 0) with (Ok f) by reflexivity. cbn [Py.bind].
  rewrite (shift_back_on_1900 _ _ P (u_range (starttime f))).
  split; [reflexivity|]. split; [reflexivity|].
  cbn [map firstn moved starttime]. f_equal.
  inversion P as [|? ? (S & _) _]; subst.
  rewrite (on_1900_u _ S). lia.
Qed.

(** X15.  On a stream that [_parse] returned and that is not empty,
    [duration] does not raise and is the time from midnight of 1900-01-01
    to the end of the last fragment, less than 24 hours. *)
Theorem duration_parsed (lines : list string) (s : SubtitleStream) :
  Parse._parse py_int lines = Ok s -> s <> [] ->
  exists last,
    getitem s (-1) = Ok last
    /\ StreamOps.duration s = Ok (endtime last - midnight_1900)
    /\ 0 <= endtime last - midnight_1900 < Datetime.day_us.
Proof.
  intros P NE. apply parse_good in P.
  destruct (getitem_last_ok s NE) as (last & G & I).
  exists last. split; [exact G|].
  rewrite Forall_forall in P. destruct (P last I) as (_ & E & _).
  unfold StreamOps.duration. rewrite G. cbn [Py.bind].
  rewrite (on_1900_u _ E). split; [reflexivity|].
  apply on_1900_bounds in E. unfold midnight_1900.
  change Datetime.ordinal_1900_01_01 with 693596.
  change Datetime.day_us with 86400000000. lia.
Qed.

(** X16.  A line read where the period is expected and that does not split
    in two at [-->] raises [SRTParseException] with the message
    ['<line>' does not seem to have a valid period line format], the line
    quoted without the white space around it. *)
Theorem bad_period_line pre raw post st :
  for_each (Parse.parse_line py_int) pre Parse.initial = Ok st ->
  Parse.stage st = 1 ->
  Parse.strip raw <> EmptyString ->
  List.length (Parse.split (Parse.strip raw) "-->") <> 2%nat ->
  Parse._parse py_int (pre ++ raw :: post)
  = Raise (SRTParseException
             ("'" ++ Parse.strip raw
                  ++ "' does not seem to have a valid period line format")%string).
Proof.
  intros Hpre S B L. unfold Parse._parse.
  rewrite for_each_app, Hpre. cbn [Py.bind for_each].
  rewrite parse_line_stage1 by assumption.
  destruct (Parse.split (Parse.strip raw) "-->") as [|a [|b [|c l]]];
    try reflexivity.
  simpl in L. congruence.
Qed.

Lemma int_or_ValueError_raise y e :
  Parse.int_or_ValueError py_int y = Raise e -> e = ValueError.
Proof.
  unfold Parse.int_or_ValueError. destruct (py_int y); [discriminate|].
  now intros [= <-].
Qed.

(** X17.  A period line whose start time has a piece, between [:] and [,],
    that [int] rejects raises the [ValueError] of [int], not
    [SRTParseException]: only the assertions are caught. *)
Theorem period_not_integer pre raw post st p0 p1 piece :
  for_each (Parse.parse_line py_int) pre Parse.initial = Ok st ->
  Parse.stage st = 1 ->
  Parse.strip raw <> EmptyString ->
  map Parse.strip (Parse.split (Parse.strip raw) "-->") = [p0; p1] ->
  In piece (Parse.re_split_colon_comma p0 EmptyString) ->
  py_int piece = None ->
  Parse._parse py_int (pre ++ raw :: post) = Raise ValueError.
Proof.
  intros Hpre S B P I N. unfold Parse._parse.
  rewrite for_each_app, Hpre. cbn [Py.bind for_each].
  rewrite parse_line_stage1 by assumption. rewrite P.
  unfold Parse.parse_time at 1.
  rewrite (map_m_raise (Parse.int_or_ValueError py_int) ValueError _ piece
             int_or_ValueError_raise I)
    by (unfold Parse.int_or_ValueError; now rewrite N).
  reflexivity.
Qed.

(** X18.  A period line whose start time is made of integers, but not of
    four of them, raises [SRTParseException] with the period-line
    message. *)
Theorem period_field_count pre raw post st p0 p1 tuple :
  for_each (Parse.parse_line py_int) pre Parse.initial = Ok st ->
  Parse.stage st = 1 ->
  Parse.strip raw <> EmptyString ->
  map Parse.strip (Parse.split (Parse.strip raw) "-->") = [p0; p1] ->
  map py_int (Parse.re_split_colon_comma p0 EmptyString) = map Some tuple ->
  List.length tuple <> 4%nat ->
  Parse._parse py_int (pre ++ raw :: post)
  = Raise (SRTParseException
             ("'" ++ Parse.strip raw
                  ++ "' does not seem to have a valid period line format")%string).
Proof.
  intros Hpre S B P T L. unfold Parse._parse.
  rewrite for_each_app, Hpre. cbn [Py.bind for_each].
  rewrite parse_line_stage1 by assumption. rewrite P.
  unfold Parse.parse_time at 1.
  assert (M : map_m (Parse.int_or_ValueError py_int)
                (Parse.re_split_colon_comma p0 EmptyString) = Ok tuple).
  { revert T. generalize (Parse.re_split_colon_comma p0 EmptyString).
    clear. intros l. revert tuple.
    induction l as [|x tl IH]; intros [|z zs] T; try discriminate.
    - reflexivity.
    - simpl in T. injection T as Hx Ht. simpl.
      unfold Parse.int_or_ValueError at 1. rewrite Hx. simpl.
      rewrite (IH zs Ht). reflexivity. }
  rewrite M. cbn [Py.bind].
  destruct tuple as [|h [|m [|s [|ms [|]]]]]; try reflexivity.
  simpl in L. congruence.
Qed.

(** X19.  A period line whose start time is four integers that are not an
    hour, a minute, a second and a millisecond (0-23, 0-59, 0-59, 0-999)
    raises an exception of [datetime.datetime], not [SRTParseException]:
    [OverflowError] when one of the four arguments, the milliseconds
    multiplied by 1000, does not fit a C [int], and [ValueError]
    otherwise. *)
Theorem period_out_of_range pre raw post st p0 p1 h m s ms :
  for_each (Parse.parse_line py_int) pre Parse.initial = Ok st ->
  Parse.stage st = 1 ->
  Parse.strip raw <> EmptyString ->
  map Parse.strip (Parse.split (Parse.strip raw) "-->") = [p0; p1] ->
  map py_int (Parse.re_split_colon_comma p0 EmptyString)
  = [Some h; Some m; Some s; Some ms] ->
  ~ (0 <= h < 24 /\ 0 <= m < 60 /\ 0 <= s < 60 /\ 0 <= ms < 1000) ->
  Parse._parse py_int (pre ++ raw :: post)
  = Raise (if Datetime.fits_c_int h && Datetime.fits_c_int m
              && Datetime.fits_c_int s && Datetime.fits_c_int (ms * 1000)
           then ValueError else OverflowError).
Proof.
  intros Hpre S B P T R. unfold Parse._parse.
  rewrite for_each_app, Hpre. cbn [Py.bind for_each].
  rewrite parse_line_stage1 by assumption. rewrite P.
  unfold Parse.parse_time at 1.
  destruct (Parse.re_split_colon_comma p0 EmptyString)
    as [|a [|b [|c [|d [|]]]]]; try discriminate.
  simpl in T. injection T as Ha Hb Hc Hd.
  cbn [map_m]. unfold Parse.int_or_ValueError.
  rewrite Ha, Hb, Hc, Hd. cbn [Py.bind].
  unfold Datetime.make_1900.
  destruct (Datetime.fits_c_int h && Datetime.fits_c_int m
            && Datetime.fits_c_int s && Datetime.fits_c_int (ms * 1000));
    [|reflexivity].
  cbn [negb]. destruct (_ && _) eqn:C; [|reflexivity].
  exfalso. apply R.
  repeat (apply andb_true_iff in C as [C ?]). lia.
Qed.

(** The state when no block is open: nothing was read yet, or the local
    variables still hold the fields of the last fragment. *)
Lemma parse_line_closed st raw st' :
  (Parse.ignoring st = true ->
   st = Parse.initial
   \/ (Parse.stage st = 0
       /\ exists l f, Parse.fragmentlist st = l ++ [f]
                      /\ Parse.current_fragment st = Ok f)) ->
  Parse.parse_line py_int st raw = Ok st' ->
  Parse.ignoring st' = true ->
  st' = Parse.initial
  \/ (Parse.stage st' = 0
      /\ exists l f, Parse.fragmentlist st' = l ++ [f]
                     /\ Parse.current_fragment st' = Ok f).
Proof.
  intros I H. unfold Parse.parse_line in H.
  destruct (String.eqb (Parse.strip raw) EmptyString) eqn:B.
  - destruct (Parse.ignoring st) eqn:G; cbn [negb] in H.
    + injection H as <-. intros _. now apply I.
    + apply bind_ok in H as (f & Hf & H). injection H as <-. intros _.
      right. split; [reflexivity|].
      exists (Parse.fragmentlist st), f. split; [reflexivity|]. exact Hf.
  - apply bind_ok in H as (st1 & H1 & H). injection H as <-.
    cbn [Parse.ignoring Parse.stage Parse.fragmentlist Parse.v_seqnumber
         Parse.v_starttime Parse.v_endtime Parse.v_textlines] in *.
    intros C. exfalso. revert H1 C.
    destruct (0 =? Parse.stage st).
    { destruct (py_int (Parse.strip raw)); [|discriminate].
      intros [= <-]. discriminate. }
    destruct (1 =? Parse.stage st).
    { destruct (map Parse.strip (Parse.split (Parse.strip raw) "-->"))
        as [|p0 [|p1 [|]]]; try discriminate.
      intros H1. apply bind_ok in H1 as (s & _ & H1).
      apply bind_ok in H1 as (e & _ & H1). injection H1 as <-.
      discriminate. }
    destruct (2 =? Parse.stage st).
    { intros [= <-]. discriminate. }
    intros H1. apply bind_ok in H1 as (tl & _ & H1). injection H1 as <-.
    discriminate.
Qed.

Lemma for_each_parse_closed lines : forall st st',
  (Parse.ignoring st = true ->
   st = Parse.initial
   \/ (Parse.stage st = 0
       /\ exists l f, Parse.fragmentlist st = l ++ [f]
                      /\ Parse.current_fragment st = Ok f)) ->
  for_each (Parse.parse_line py_int) lines st = Ok st' ->
  Parse.ignoring st' = true ->
  st' = Parse.initial
  \/ (Parse.stage st' = 0
      /\ exists l f, Parse.fragmentlist st' = l ++ [f]
                     /\ Parse.current_fragment st' = Ok f).
Proof.
  induction lines as [|l tl IH]; intros st st' I H; simpl in H.
  - injection H as <-. exact I.
  - apply bind_ok in H as (st1 & H1 & H). eapply IH; [|exact H].
    eapply parse_line_closed; eassumption.
Qed.

(** X20.  A first block that is a sequence number only, before a blank line
    or the end of the input, raises [UnboundLocalError]: the fragment is
    built from local variables that no line has assigned. *)
Theorem truncated_first_block pre raw rest n :
  Forall (fun l => Parse.strip l = EmptyString) pre ->
  Parse.strip raw <> EmptyString ->
  py_int (Parse.strip raw) = Some n ->
  Forall (fun l => Parse.strip l = EmptyString) (firstn 1 rest) ->
  Parse._parse py_int (pre ++ raw :: rest) = Raise UnboundLocalError.
Proof.
  intros Bp B N Br. unfold Parse._parse.
  rewrite for_each_app, (blank_lines_idle pre Parse.initial Bp eq_refl).
  cbn [Py.bind for_each].
  rewrite (parse_line_stage0 Parse.initial raw n eq_refl B N).
  cbn [Py.bind]. destruct rest as [|b rest]; [reflexivity|].
  inversion Br as [|? ? Bb _]; subst.
  cbn [for_each]. rewrite parse_line_blank by exact Bb. reflexivity.
Qed.

(** X21.  After a closed block, a block that is a sequence number only,
    at the end of the input, gives a fragment with that number and with the
    times and the text lines of the fragment before it: the local
    variables still hold them. *)
Theorem truncated_later_block pre blank raw frags last n :
  Parse._parse py_int pre = Ok frags ->
  getitem frags (-1) = Ok last ->
  Parse.strip blank = EmptyString ->
  Parse.strip raw <> EmptyString ->
  py_int (Parse.strip raw) = Some n ->
  Parse._parse py_int (pre ++ [blank; raw])
  = Ok (frags ++ [mkFragment n (starttime last) (endtime last)
                    (textlines last)]).
Proof.
  intros P G Bb B N.
  assert (C : exists st,
    for_each (Parse.parse_line py_int) (pre ++ [blank]) Parse.initial = Ok st
    /\ Parse.stage st = 0 /\ Parse.fragmentlist st = frags
    /\ Parse.current_fragment st = Ok last).
  { rewrite <- (parse_trailing_blank pre blank Bb) in P.
    unfold Parse._parse in P.
    destruct (for_each (Parse.parse_line py_int) (pre ++ [blank])
                Parse.initial) as [st|e] eqn:F; [|discriminate].
    cbn [Py.bind] in P.
    assert (I : Parse.ignoring st = true).
    { rewrite for_each_app in F.
      apply bind_ok in F as (st0 & _ & F). cbn [for_each] in F.
      apply bind_ok in F as (st1 & F1 & F). injection F as <-.
      eapply parse_line_blank_result; eassumption. }
    rewrite I in P. cbn [negb] in P. injection P as <-.
    exists st. split; [reflexivity|].
    destruct (for_each_parse_closed _ _ _ (fun _ => or_introl eq_refl) F I)
      as [-> | (S0 & l & f & Hl & Hf)].
    - cbv in G. discriminate.
    - split; [exact S0|]. split; [reflexivity|].
      rewrite Hl in G.
      rewrite getitem_app_last in G. congruence. }
  destruct C as (st & F & S0 & Hl & Hf).
  unfold Parse._parse.
  replace (pre ++ [blank; raw]) with ((pre ++ [blank]) ++ [raw])
    by (now rewrite <- app_assoc).
  rewrite for_each_app, F. cbn [Py.bind for_each].
  rewrite (parse_line_stage0 st raw n S0 B N).
  cbn [Py.bind Parse.ignoring negb].
  apply current_fragment_fields in Hf as (_ & Hs & He & Ht).
  unfold Parse.current_fragment.
  cbn [Parse.v_seqnumber Parse.v_starttime Parse.v_endtime Parse.v_textlines
       Parse.fragmentlist].
  rewrite Hs, He, Ht, Hl. reflexivity.
Qed.

End ParseMore.

Lemma parse_two_blocks :
  Parse._parse Parse.decimal_int SampleSrt.srt_two_blocks
  = Ok SampleSrt.two_blocks.
Proof. vm_compute. reflexivity. Qed.

Lemma trailing_blank_line_witness :
  Parse._parse Parse.decimal_int
    (SampleSrt.srt_two_blocks ++ [Sample.nl; " "%string])
  = Parse._parse Parse.decimal_int SampleSrt.srt_two_blocks.
Proof.
  apply (trailing_blank_line Parse.decimal_int SampleSrt.srt_two_blocks
           [Sample.nl; " "%string]).
  repeat constructor.
Defined.

Lemma repeated_blank_lines_witness :
  Parse._parse Parse.decimal_int (Sample.nl :: SampleSrt.srt_two_blocks)
  = Parse._parse Parse.decimal_int SampleSrt.srt_two_blocks.
Proof.
  exact (proj1 (repeated_blank_lines Parse.decimal_int []
                  SampleSrt.srt_two_blocks Sample.nl Sample.nl
                  eq_refl eq_refl)).
Defined.

Lemma parsed_fragments_good_witness :
  Forall (fun f => ParseSpec.good_fragment f /\ FragmentM.valid f
                   /\ FragmentM.duration f = endtime f - starttime f)
    SampleSrt.two_blocks.
Proof.
  exact (parsed_fragments_good Parse.decimal_int SampleSrt.srt_two_blocks
           SampleSrt.two_blocks parse_two_blocks).
Defined.

Lemma shift_to_zero_parsed_witness :
  exists s',
    Stream.shift_to_zero SampleSrt.two_blocks = Ok s'
    /\ map starttime (firstn 1 s') = [ParseSpec.midnight_1900].
Proof.
  destruct (shift_to_zero_parsed Parse.decimal_int SampleSrt.srt_two_blocks
              SampleSrt.two_blocks parse_two_blocks)
    as (f & s' & _ & Z & _ & M).
  - discriminate.
  - exists s'. split; assumption.
Defined.

Lemma duration_parsed_witness :
  StreamOps.duration SampleSrt.two_blocks = Ok 62123000.
Proof.
  destruct (duration_parsed Parse.decimal_int SampleSrt.srt_two_blocks
              SampleSrt.two_blocks parse_two_blocks)
    as (l & G & D & _).
  - discriminate.
  - rewrite D. vm_compute in G. injection G as <-. reflexivity.
Defined.

Lemma bad_period_line_witness :
  Parse._parse Parse.decimal_int
    ["7"%string; "00:00:01,500 -> 00:00:02,000"%string; "Hello"%string]
  = Raise (SRTParseException
      "'00:00:01,500 -> 00:00:02,000' does not seem to have a valid period line format").
Proof.
  refine (bad_period_line Parse.decimal_int ["7"%string]
            "00:00:01,500 -> 00:00:02,000"%string ["Hello"%string] _ _ _ _ _).
  - vm_compute. reflexivity.
  - reflexivity.
  - vm_compute. discriminate.
  - vm_compute. discriminate.
Defined.

Lemma period_not_integer_witness :
  Parse._parse Parse.decimal_int
    ["7"%string; "00:00:xx,500 --> 00:00:02,000"%string; "Hello"%string]
  = Raise ValueError.
Proof.
  refine (period_not_integer Parse.decimal_int ["7"%string]
            "00:00:xx,500 --> 00:00:02,000"%string ["Hello"%string] _
            "00:00:xx,500"%string "00:00:02,000"%string "xx"%string
            _ _ _ _ _ _).
  - vm_compute. reflexivity.
  - reflexivity.
  - vm_compute. discriminate.
  - vm_compute. reflexivity.
  - vm_compute. tauto.
  - vm_compute. reflexivity.
Defined.

Lemma period_field_count_witness :
  Parse._parse Parse.decimal_int
    ["7"%string; "00:00:01 --> 00:00:02,000"%string; "Hello"%string]
  = Raise (SRTParseException
      "'00:00:01 --> 00:00:02,000' does not seem to have a valid period line format").
Proof.
  refine (period_field_count Parse.decimal_int ["7"%string]
            "00:00:01 --> 00:00:02,000"%string ["Hello"%string] _
            "00:00:01"%string "00:00:02,000"%string [0; 0; 1]
            _ _ _ _ _ _).
  - vm_compute. reflexivity.
  - reflexivity.
  - vm_compute. discriminate.
  - vm_compute. reflexivity.
  - vm_compute. reflexivity.
  - vm_compute. discriminate.
Defined.

Lemma period_out_of_range_witness :
  Parse._parse Parse.decimal_int
    ["7"%string; "00:61:01,000 --> 00:00:02,000"%string; "Hello"%string]
  = Raise ValueError
  /\ Parse._parse Parse.decimal_int
       ["7"%string; "99999999999:00:01,000 --> 00:00:02,000"%string]
     = Raise OverflowError.
Proof.
  split.
  - refine (period_out_of_range Parse.decimal_int ["7"%string]
              "00:61:01,000 --> 00:00:02,000"%string ["Hello"%string] _
              "00:61:01,000"%string "00:00:02,000"%string 0 61 1 0
              _ _ _ _ _ _).
    + vm_compute. reflexivity.
    + reflexivity.
    + vm_compute. discriminate.
    + vm_compute. reflexivity.
    + vm_compute. reflexivity.
    + lia.
  - refine (period_out_of_range Parse.decimal_int ["7"%string]
              "99999999999:00:01,000 --> 00:00:02,000"%string [] _
              "99999999999:00:01,000"%string "00:00:02,000"%string
              99999999999 0 1 0 _ _ _ _ _ _).
    + vm_compute. reflexivity.
    + reflexivity.
    + vm_compute. discriminate.
    + vm_compute. reflexivity.
    + vm_compute. reflexivity.
    + lia.
Defined.

Lemma truncated_first_block_witness :
  Parse._parse Parse.decimal_int [Sample.nl; "1"%string; Sample.nl]
  = Raise UnboundLocalError.
Proof.
  apply (truncated_first_block Parse.decimal_int [Sample.nl] "1"%string
           [Sample.nl] 1).
  - repeat constructor.
  - vm_compute. discriminate.
  - reflexivity.
  - repeat constructor.
Defined.

Lemma truncated_later_block_witness :
  Parse._parse Parse.decimal_int
    (SampleSrt.srt_two_blocks ++ [Sample.nl; "3"%string])
  = Ok (SampleSrt.two_blocks
        ++ [mkFragment 3 (Sample.at_1900 0 1 0 0) (Sample.at_1900 0 1 2 123)
              ["x"%string]]).
Proof.
  apply (truncated_later_block Parse.decimal_int SampleSrt.srt_two_blocks
           Sample.nl "3"%string SampleSrt.two_blocks
           (mkFragment 2 (Sample.at_1900 0 1 0 0) (Sample.at_1900 0 1 2 123)
              ["x"%string]) 3).
  - exact parse_two_blocks.
  - reflexivity.
  - reflexivity.
  - vm_compute. discriminate.
  - reflexivity.
Defined.

(** ** More on the synchronization *)

Lemma getitem_ok_in {A} (l : list A) k x : getitem l k = Ok x -> In x l.
Proof.
  unfold getitem. destruct (_ || _); [discriminate|].
  destruct (nth_error l _) eqn:N; [|discriminate].
  intros H. injection H as <-. eapply nth_error_In; eassumption.
Qed.

Lemma in_firstn {A} n (l : list A) x : In x (firstn n l) -> In x l.
Proof.
  intros H. rewrite <- (firstn_skipn n l). apply in_or_app. now left.
Qed.

Lemma in_skipn {A} n (l : list A) x : In x (skipn n l) -> In x l.
Proof.
  intros H. rewrite <- (firstn_skipn n l). apply in_or_app. now right.
Qed.

(** A slice holds elements of the list only. *)
Lemma getslice_incl {A} (l : list A) lo hi x :
  In x (getslice l lo hi) -> In x l.
Proof.
  unfold getslice. intros H. eapply in_skipn, in_firstn. exact H.
Qed.

(** The order of floats, as [>] compares them: nothing is above itself, and
    what is not above [a] is not above anything above [a]. *)
Lemma SFltb_irrefl x : SFltb x x = false.
Proof.
  destruct x as [s| s | |s m e]; try destruct s; try reflexivity;
    unfold SFltb, SFcompare; rewrite Z.compare_refl;
    change (Pos.compare_cont Eq m m) with (Pos.compare m m);
    rewrite Pos.compare_refl; reflexivity.
Qed.

Lemma SFltb_above a c x :
  SFltb a c = true -> SFltb a x = false -> SFltb c x = false.
Proof.
  unfold SFltb.
  destruct a as [sa|sa| |sa ma ea]; destruct c as [sc|sc| |sc mc ec];
    destruct x as [sx|sx| |sx mx ex];
    try destruct sa; try destruct sc; try destruct sx;
    cbn [SFcompare]; try discriminate; try reflexivity;
    change (Pos.compare_cont Eq) with Pos.compare;
    repeat match goal with
    | |- context [Z.compare ?p ?q] =>
        destruct (Z.compare_spec p q); cbn [CompOpp]
    | |- context [Pos.compare ?p ?q] =>
        destruct (Pos.compare_spec p q); cbn [CompOpp]
    end; try discriminate; try reflexivity; try (intros; exfalso; lia).
Qed.

Lemma gt_best_self c : Sync.gt_best c (PFloat c) = false.
Proof.
  unfold Sync.gt_best. cbn [to_float]. rewrite ltb_spec.
  apply SFltb_irrefl.
Qed.

Lemma gt_best_above best c x :
  Sync.gt_best c best = true -> Sync.gt_best x best = false ->
  Sync.gt_best x (PFloat c) = false.
Proof.
  unfold Sync.gt_best. cbn [to_float]. rewrite !ltb_spec.
  apply SFltb_above.
Qed.

Section SelectFacts.

Import SelectSpec.

Variable gp : Sync.oracle.

(** The loop of [select_closest] keeps its invariant, computes the
    confidence of every option it reads, and ends with a confidence that
    none of them is above. *)
Lemma select_loop ref first interval options : forall l acc r,
  for_each
    (fun (best : Fragment * num) f =>
       confidence <- Sync.confidence_of gp ref interval f ;;
       if Sync.gt_best confidence (snd best) then Ok (f, PFloat confidence)
       else Ok best)
    l acc = Ok r ->
  (forall x, In x l -> In x options) ->
  chosen gp ref first interval options acc ->
  chosen gp ref first interval options r
  /\ (forall x, In x l ->
        exists c, Sync.confidence_of gp ref interval x = Ok c
                  /\ Sync.gt_best c (snd r) = false)
  /\ (forall c, Sync.gt_best c (snd acc) = false ->
                Sync.gt_best c (snd r) = false).
Proof.
  induction l as [|f tl IH]; intros acc r H I C; simpl in H.
  - injection H as <-. split; [exact C|]. split; [intros x []|auto].
  - apply bind_ok in H as (acc1 & H1 & H).
    apply bind_ok in H1 as (c & Hc & H1).
    assert (C1 : chosen gp ref first interval options acc1
                 /\ Sync.gt_best c (snd acc1) = false
                 /\ forall c0, Sync.gt_best c0 (snd acc) = false ->
                               Sync.gt_best c0 (snd acc1) = false).
    { destruct (Sync.gt_best c (snd acc)) eqn:G; injection H1 as <-.
      - split.
        + split; [apply I; now left|]. right. exists c. now split.
        + cbn [snd]. split; [apply gt_best_self|].
          intros c0. now apply gt_best_above.
      - split; [exact C|]. split; [exact G | auto]. }
    destruct C1 as (C1 & Gf & M1).
    destruct (IH acc1 r H (fun x Hx => I x (or_intror Hx)) C1)
      as (Cr & A & M).
    split; [exact Cr|]. split.
    + intros x [<- | Hx]; [exists c; auto | auto].
    + intros c0 H0. auto.
Qed.

Lemma select_closest_in ref options best conf :
  Sync.select_closest gp ref options = Ok (best, conf) -> In best options.
Proof.
  unfold Sync.select_closest. intros H.
  apply bind_ok in H as (b & Hb & H).
  apply bind_ok in H as (last & Hl & H).
  apply bind_ok in H as (first & Hf & H).
  assert (b = first) by congruence. subst b.
  destruct (select_loop ref first (interval_of first last) options
              options (first, PInt 0) (best, conf) H (fun x Hx => Hx))
    as [[I _] _]; [|exact I].
  split; [eapply getitem_ok_in; exact Hf | left; now split].
Qed.

(** X22.  When [select_closest] returns, the options are not empty, the
    confidence of every option was computed without error, the choice is
    one of the options, and the confidence returned is the confidence of
    the choice, which no option's confidence exceeds; or it is the integer
    0 with the first option as the choice, when no confidence exceeds 0. *)
Theorem select_closest_member (ref : Fragment) (options : list Fragment)
  (best : Fragment) (conf : num) :
  Sync.select_closest gp ref options = Ok (best, conf) ->
  exists first last,
    getitem options 0 = Ok first /\ getitem options (-1) = Ok last
    /\ In best options
    /\ ((conf = PInt 0 /\ best = first)
        \/ exists c, conf = PFloat c
             /\ Sync.confidence_of gp ref (interval_of first last) best
                = Ok c)
    /\ forall f, In f options ->
         exists c, Sync.confidence_of gp ref (interval_of first last) f
                   = Ok c
                   /\ Sync.gt_best c conf = false.
Proof.
  unfold Sync.select_closest. intros H.
  apply bind_ok in H as (b & Hb & H).
  apply bind_ok in H as (last & Hl & H).
  apply bind_ok in H as (first & Hf & H).
  assert (b = first) by congruence. subst b.
  exists first, last. split; [exact Hf|]. split; [exact Hl|].
  destruct (select_loop ref first (interval_of first last) options
              options (first, PInt 0) (best, conf) H (fun x Hx => Hx))
    as [[I C] [A _]].
  - split; [eapply getitem_ok_in; exact Hf | left; now split].
  - split; [exact I|]. split; [exact C | exact A].
Qed.

(** One turn of the loop of [_synchronize] adds one triple: the reference
    fragment with a shifted copy of a fragment of the delayed stream. *)
Lemma match_fragment_ok delayed d acc fragment r :
  Sync.match_fragment gp delayed d acc fragment = Ok r ->
  exists m conf,
    r = acc ++ [(fragment, m, conf)]
    /\ from_delayed delayed (fragment, m, conf).
Proof.
  unfold Sync.match_fragment. intros H.
  apply bind_ok in H as (e & _ & H).
  apply bind_ok in H as (fixed & Hs & H).
  apply bind_ok in H as (w & Hw & H).
  apply bind_ok in H as ([m conf] & Hp & H). injection H as <-.
  apply select_closest_in in Hp.
  unfold Sync.window in Hw. apply bind_ok in Hw as (j & _ & Hw).
  injection Hw as <-. cbn [snd] in Hp. apply getslice_incl in Hp.
  apply stream_shift_pointwise in Hs.
  exists m, conf. split; [reflexivity|].
  unfold from_delayed. cbn [fst snd].
  clear -Hs Hp. induction Hs as [|x y l l' (A & B & _) _ IH]; [destruct Hp|].
  destruct Hp as [<- | Hp].
  - exists x. split; [now left|]. now split.
  - destruct (IH Hp) as (g & Ig & S & T). exists g.
    split; [now right|]. now split.
Qed.

(** X23.  When [_synchronize] returns, the result has one triple for each
    fragment of the reference stream, in order and with that fragment
    first; the fragment matched to it has the sequence number and the text
    lines of a fragment of the delayed stream. *)
Theorem synchronize_triples (reference delayed : SubtitleStream)
  (d : Fragment -> result float) (res : list Sync.triple) :
  Sync._synchronize gp reference delayed d = Ok res ->
  map (fun t => fst (fst t)) res = reference
  /\ Forall (from_delayed delayed) res.
Proof.
  unfold Sync._synchronize.
  destruct (len reference =? 0) eqn:E.
  - intros H. injection H as <-. apply Z.eqb_eq in E. unfold len in E.
    destruct reference; [split; [reflexivity | constructor] | simpl in E; lia].
  - clear E. intros H.
    assert (G : forall l acc r,
      for_each (Sync.match_fragment gp delayed d) l acc = Ok r ->
      Forall (from_delayed delayed) acc ->
      map (fun t => fst (fst t)) r = map (fun t => fst (fst t)) acc ++ l
      /\ Forall (from_delayed delayed) r).
    { induction l as [|f tl IH]; intros acc r Hr Fa; simpl in Hr.
      - injection Hr as <-. now rewrite app_nil_r.
      - apply bind_ok in Hr as (acc1 & H1 & Hr).
        apply match_fragment_ok in H1 as (m & c & -> & Fd).
        destruct (IH _ _ Hr) as [M F].
        + apply Forall_app. split; [exact Fa|].
          constructor; [exact Fd | constructor].
        + split; [|exact F]. rewrite M, map_app, <- app_assoc. reflexivity. }
    destruct (G reference [] res H (Forall_nil _)) as [M F].
    split; [exact M | exact F].
Qed.

End SelectFacts.

Lemma select_closest_member_witness :
  exists first last,
    getitem [Sample.numbered 1; Sample.numbered 2; Sample.numbered 4] 0
    = Ok first
    /\ getitem [Sample.numbered 1; Sample.numbered 2; Sample.numbered 4] (-1)
       = Ok last
    /\ Sync.confidence_of Sample.alike (Sample.numbered 2)
         (SelectSpec.interval_of first last) (Sample.numbered 2)
       = Ok 1%float.
Proof.
  destruct (select_closest_member Sample.alike (Sample.numbered 2)
              [Sample.numbered 1; Sample.numbered 2; Sample.numbered 4]
              (Sample.numbered 2) (PFloat 1))
    as (first & last & F & L & _ & [[C _] | (c & C & Hc)] & _).
  - vm_compute. reflexivity.
  - discriminate C.
  - exists first, last. split; [exact F|]. split; [exact L|].
    injection C as <-. exact Hc.
Defined.

Lemma synchronize_triples_witness :
  exists res,
    Sync._synchronize Sample.alike SampleSrt.two_blocks Sample.gapped
      (fun _ => Ok 0%float) = Ok res
    /\ map (fun t => fst (fst t)) res = SampleSrt.two_blocks.
Proof.
  destruct (Sync._synchronize Sample.alike SampleSrt.two_blocks Sample.gapped
              (fun _ => Ok 0%float)) as [res|e] eqn:E.
  - exists res. split; [reflexivity|].
    exact (proj1 (synchronize_triples Sample.alike SampleSrt.two_blocks
                    Sample.gapped (fun _ => Ok 0%float) res E)).
  - vm_compute in E. discriminate E.
Defined.

(** X24.  For two streams that are not empty and whose last fragments start
    at different times of day, [synchronize] does not depend on the order
    of its two arguments: the same result or the same exception. *)
Theorem synchronize_order (og : option Sync.oracle)
  (sstream1 sstream2 : SubtitleStream) (last1 last2 : Fragment) :
  getitem sstream1 (-1) = Ok last1 ->
  getitem sstream2 (-1) = Ok last2 ->
  _u (starttime last1) <> _u (starttime last2) ->
  Sync.synchronize og sstream1 sstream2
  = Sync.synchronize og sstream2 sstream1.
Proof.
  intros G1 G2 NE. destruct og as [gp|]; [|reflexivity].
  unfold Sync.synchronize, Sync.partial_synchronization.
  rewrite G1, G2. cbn [Py.bind].
  replace (Z.abs (_u (starttime last2) - _u (starttime last1)))
    with (Z.abs (_u (starttime last1) - _u (starttime last2))) by lia.
  destruct (_u (starttime last1) - _u (starttime last2) <? 0) eqn:A;
    destruct (_u (starttime last2) - _u (starttime last1) <? 0) eqn:B;
    try lia; cbn [fst snd]; reflexivity.
Qed.

Lemma synchronize_order_witness :
  Sync.synchronize (Some Sample.alike) Sample.gapped SampleSrt.two_blocks
  = Sync.synchronize (Some Sample.alike) SampleSrt.two_blocks Sample.gapped.
Proof.
  apply (synchronize_order (Some Sample.alike) Sample.gapped
           SampleSrt.two_blocks (Sample.numbered 5)
           (mkFragment 2 (Sample.at_1900 0 1 0 0) (Sample.at_1900 0 1 2 123)
              ["x"%string])).
  - reflexivity.
  - reflexivity.
  - vm_compute. discriminate.
Defined.

(** ** More on [normalize] *)

Section NormalizeMore.

Import Normalize NormalizeSpec.

Local Ltac every_char c :=
  destruct c as [[|] [|] [|] [|] [|] [|] [|] [|]]; vm_compute;
  try reflexivity; try discriminate; try tauto.

Lemma lower_simplify_lower c :
  simplify_char (lower_char (lower_char c)) = simplify_char (lower_char c).
Proof. every_char c. Qed.

Lemma lower_simplify_simplify c :
  simplify_char (lower_char (simplify_char c)) = simplify_char (lower_char c).
Proof. every_char c. Qed.

Lemma map_string_map_string f g s :
  map_string f (map_string g s) = map_string (fun c => f (g c)) s.
Proof. induction s as [|c tl IH]; simpl; [reflexivity | now rewrite IH]. Qed.

Lemma map_string_ext f g s :
  (forall c, f c = g c) -> map_string f s = map_string g s.
Proof.
  intros H. induction s as [|c tl IH]; simpl; [reflexivity|].
  now rewrite H, IH.
Qed.

(** X25.  The case and the accents of the input do not count: [normalize]
    gives the same string for [s], for [s] in lower case and for [s] with
    the accented vowels of the table replaced. *)
Theorem normalize_ignores_case (s : string) :
  normalize (map_string lower_char s) = normalize s
  /\ normalize (map_string simplify_char s) = normalize s.
Proof.
  unfold normalize. rewrite !map_string_map_string. split; f_equal.
  - apply map_string_ext. intros c. apply lower_simplify_lower.
  - apply map_string_ext. intros c. apply lower_simplify_simplify.
Qed.

Lemma tag_rest_length s rest :
  tag_rest s = Some rest -> (String.length rest < String.length s)%nat.
Proof.
  revert rest. induction s as [|c tl IH]; simpl; intros rest; [discriminate|].
  destruct (code c =? 62)%N; [intros H; injection H as <-; lia|].
  destruct (code c =? 10)%N; [discriminate|].
  intros H. apply IH in H. lia.
Qed.

Lemma match_at_length c tl rest :
  match_at (String c tl) = Some rest ->
  (String.length rest <= String.length tl)%nat.
Proof.
  unfold match_at. destruct (match_tag (String c tl)) as [r|] eqn:T.
  - intros H. injection H as <-. unfold match_tag in T.
    destruct tl as [|c1 tl]; [discriminate|].
    destruct ((code c =? 60)%N && negb (code c1 =? 10)%N); [|discriminate].
    apply tag_rest_length in T. simpl. lia.
  - simpl. destruct (is_noise c); [|discriminate].
    intros H. injection H as <-. apply drop_noise_length.
Qed.

Lemma sub_loop_length : forall n s,
  (String.length (sub_loop n s) <= String.length s)%nat.
Proof.
  induction n as [|n IH]; intros s; [simpl; lia|].
  destruct s as [|c tl]; [simpl; lia|]. simpl sub_loop.
  destruct (match_at (String c tl)) as [rest|] eqn:M.
  - apply match_at_length in M. specialize (IH rest). simpl. lia.
  - specialize (IH tl). simpl. lia.
Qed.

Lemma map_string_length f s :
  String.length (map_string f s) = String.length s.
Proof. induction s as [|c tl IH]; simpl; [reflexivity | now rewrite IH]. Qed.

(** X26.  The output of [normalize] holds only the characters [[a-z0-9_]],
    the n with tilde and the space, and is never longer than the input. *)
Theorem normalize_output (s : string) :
  all_chars clean (normalize s) = true
  /\ (String.length (normalize s) <= String.length s)%nat.
Proof.
  split; [apply normalize_clean|].
  unfold normalize, re_sub.
  etransitivity; [apply sub_loop_length|].
  now rewrite !map_string_length.
Qed.

(** X27.  [normalize] returns its input unchanged when the input holds only
    the characters [[a-z0-9_]], the n with tilde and the space, and no two
    adjacent spaces. *)
Theorem normalize_identity (s : string) :
  all_chars clean s = true -> no_double_space s = true ->
  normalize s = s.
Proof.
  intros C D. rewrite normalize_of_clean by exact C.
  now apply sub_loop_fixed.
Qed.

End NormalizeMore.

Lemma normalize_identity_witness :
  Normalize.normalize "el ni_o 42"%string = "el ni_o 42"%string.
Proof.
  apply normalize_identity; vm_compute; reflexivity.
Defined.

(** ** Printing and reading back *)

Section PrintFacts.

Import Format PrintSpec NormalizeSpec.

Local Ltac any_char c :=
  destruct c as [[|] [|] [|] [|] [|] [|] [|] [|]]; vm_compute;
  try reflexivity; try discriminate; try tauto.

Lemma digit_char_digit d : 0 <= d <= 9 -> is_digit (digit_char d) = true.
Proof.
  intros H.
  assert (C : d = 0 \/ d = 1 \/ d = 2 \/ d = 3 \/ d = 4 \/ d = 5 \/ d = 6
              \/ d = 7 \/ d = 8 \/ d = 9) by lia.
  repeat (destruct C as [-> | C]; [reflexivity|]). now subst.
Qed.

Lemma digit_char_code d :
  0 <= d <= 9 -> Z.of_N (Normalize.code (digit_char d)) = 48 + d.
Proof.
  intros H.
  assert (C : d = 0 \/ d = 1 \/ d = 2 \/ d = 3 \/ d = 4 \/ d = 5 \/ d = 6
              \/ d = 7 \/ d = 8 \/ d = 9) by lia.
  repeat (destruct C as [-> | C]; [reflexivity|]). now subst.
Qed.

Lemma digit_not_space c : is_digit c = true -> Parse.is_space c = false.
Proof. any_char c. Qed.

Lemma digit_not_linebreak c : is_digit c = true -> not_linebreak c = true.
Proof. any_char c. Qed.

Lemma digit_not_dash c : is_digit c = true -> not_dash c = true.
Proof. any_char c. Qed.

Lemma digit_not_sign c :
  is_digit c = true ->
  (Normalize.code c =? 45)%N = false /\ (Normalize.code c =? 43)%N = false.
Proof. any_char c. Qed.

Lemma digit_not_colon c :
  is_digit c = true ->
  (Normalize.code c =? 58)%N || (Normalize.code c =? 44)%N = false.
Proof. any_char c. Qed.

(** *** Decimal numbers *)

Lemma digits_digit d tl acc :
  0 <= d <= 9 ->
  Parse.digits (String (digit_char d) tl) acc
  = Parse.digits tl (10 * acc + d).
Proof.
  intros H. cbn [Parse.digits].
  change (Normalize.in_range 48 57 (digit_char d))
    with (is_digit (digit_char d)).
  rewrite (digit_char_digit d H), (digit_char_code d H).
  f_equal. lia.
Qed.

Lemma decimal_int_digits c tl :
  is_digit c = true ->
  Parse.decimal_int (String c tl) = Parse.digits (String c tl) 0.
Proof.
  intros H. unfold Parse.decimal_int.
  destruct (digit_not_sign c H) as [-> ->]. reflexivity.
Qed.

Lemma log2_tenth n : 10 <= n -> Z.log2 (n / 10) < Z.log2 n.
Proof.
  intros H.
  assert (P : 0 < n / 10) by (Z.to_euclidean_division_equations; lia).
  apply (proj1 (Z.log2_lt_pow2 (n / 10) (Z.log2 n) P)).
  destruct (Z.log2_spec n ltac:(lia)) as [_ U].
  rewrite Z.pow_succ_r in U by apply Z.log2_nonneg.
  revert U. generalize (2 ^ Z.log2 n). intros q U.
  Z.to_euclidean_division_equations. lia.
Qed.

(** With enough fuel the digits read back as the number. *)
Lemma digits_of_read : forall fuel n,
  0 <= n -> Z.log2 n < Z.of_nat fuel ->
  exists p, forall rest a,
    Parse.digits (digits_of fuel n rest) a = Parse.digits rest (a * p + n).
Proof.
  induction fuel as [|k IH]; intros n N F.
  - pose proof (Z.log2_nonneg n). lia.
  - cbn [digits_of].
    assert (D : 0 <= n mod 10 <= 9) by (pose proof (Z.mod_pos_bound n 10); lia).
    destruct (n / 10 =? 0) eqn:E.
    + apply Z.eqb_eq in E. exists 10. intros rest a.
      rewrite digits_digit by exact D. f_equal.
      pose proof (Z.div_mod n 10). lia.
    + apply Z.eqb_neq in E.
      assert (T : 10 <= n).
      { destruct (Z_lt_le_dec n 10); [|assumption].
        rewrite Z.div_small in E by lia. congruence. }
      destruct (IH (n / 10)) as (p & Hp).
      * apply Z.div_pos; lia.
      * pose proof (log2_tenth n T). lia.
      * exists (10 * p). intros rest a. rewrite Hp.
        rewrite digits_digit by exact D. f_equal.
        pose proof (Z.div_mod n 10). lia.
Qed.

Lemma digits_of_digits : forall fuel n acc,
  all_chars is_digit acc = true ->
  all_chars is_digit (digits_of fuel n acc) = true.
Proof.
  induction fuel as [|k IH]; intros n acc A; [exact A|].
  cbn [digits_of].
  assert (D : all_chars is_digit (String (digit_char (n mod 10)) acc) = true).
  { cbn [all_chars]. rewrite A, digit_char_digit; [reflexivity|].
    pose proof (Z.mod_pos_bound n 10). lia. }
  destruct (n / 10 =? 0); [exact D | now apply IH].
Qed.

Lemma digits_of_app : forall fuel n acc,
  digits_of fuel n acc = (digits_of fuel n EmptyString ++ acc)%string.
Proof.
  induction fuel as [|k IH]; intros n acc; [reflexivity|].
  cbn [digits_of]. destruct (n / 10 =? 0); [reflexivity|].
  rewrite IH, (IH _ (String _ EmptyString)), append_assoc_s. reflexivity.
Qed.

Lemma append_nonempty_r (a b : string) :
  b <> EmptyString -> (a ++ b)%string <> EmptyString.
Proof. destruct a; [auto | discriminate]. Qed.

Lemma digits_of_nonempty fuel n :
  digits_of (S fuel) n EmptyString <> EmptyString.
Proof.
  cbn [digits_of]. destruct (n / 10 =? 0); [discriminate|].
  rewrite digits_of_app. apply append_nonempty_r. discriminate.
Qed.

(** [%d] prints an optional minus sign and digits, which read back as the
    number. *)
Lemma percent_d_shape z :
  exists body,
    body <> EmptyString /\ all_chars is_digit body = true
    /\ percent_d z = (if z <? 0 then String "-" body else body)
    /\ Parse.digits body 0 = Some (Z.abs z).
Proof.
  unfold percent_d. destruct (z <? 0) eqn:E.
  - apply Z.ltb_lt in E.
    destruct (digits_of_read (S (Z.to_nat (Z.log2 (- z)))) (- z)) as (p & Hp);
      [lia | pose proof (Z.log2_nonneg (- z)); lia |].
    eexists. split; [apply digits_of_nonempty|].
    split; [now apply digits_of_digits|]. split; [reflexivity|].
    rewrite Hp. cbn [Parse.digits]. f_equal. lia.
  - apply Z.ltb_ge in E.
    destruct (digits_of_read (S (Z.to_nat (Z.log2 z))) z) as (p & Hp);
      [lia | pose proof (Z.log2_nonneg z); lia |].
    eexists. split; [apply digits_of_nonempty|].
    split; [now apply digits_of_digits|]. split; [reflexivity|].
    rewrite Hp. cbn [Parse.digits]. f_equal. lia.
Qed.

Lemma percent_d_read z : Parse.decimal_int (percent_d z) = Some z.
Proof.
  destruct (percent_d_shape z) as (body & NE & D & -> & R).
  destruct body as [|c tl]; [congruence|].
  cbn [all_chars] in D. apply andb_true_iff in D as [Dc _].
  destruct (z <? 0) eqn:E.
  - apply Z.ltb_lt in E.
    change (Parse.decimal_int (String "-" (String c tl)))
      with (option_map Z.opp (Parse.digits (String c tl) 0)).
    rewrite R. cbn [option_map]. f_equal. lia.
  - apply Z.ltb_ge in E. rewrite decimal_int_digits, R by exact Dc.
    f_equal. lia.
Qed.

Lemma pad2_read n : 0 <= n < 100 -> Parse.decimal_int (pad2 n) = Some n.
Proof.
  intros H. unfold pad2.
  assert (0 <= n / 10 <= 9 /\ 0 <= n mod 10 <= 9) as [A B]
    by (Z.to_euclidean_division_equations; lia).
  rewrite decimal_int_digits by now apply digit_char_digit.
  rewrite !digits_digit by assumption. cbn [Parse.digits]. f_equal.
  Z.to_euclidean_division_equations. lia.
Qed.

Lemma pad3_read n : 0 <= n < 1000 -> Parse.decimal_int (pad3 n) = Some n.
Proof.
  intros H. unfold pad3, pad2.
  assert (0 <= n / 100 <= 9 /\ 0 <= n mod 100 / 10 <= 9
          /\ 0 <= n mod 100 mod 10 <= 9) as (A & B & C)
    by (Z.to_euclidean_division_equations; lia).
  rewrite decimal_int_digits by now apply digit_char_digit.
  rewrite !digits_digit by assumption. cbn [Parse.digits]. f_equal.
  Z.to_euclidean_division_equations. lia.
Qed.

(** *** White space *)

Lemma rstrip_quiet s : all_chars not_space s = true -> Parse.rstrip s = s.
Proof.
  induction s as [|c tl IH]; [reflexivity|].
  cbn [all_chars]. intros H. apply andb_true_iff in H as [Hc Ht].
  cbn [Parse.rstrip]. rewrite (IH Ht).
  destruct tl; [|reflexivity].
  unfold not_space in Hc. apply negb_true_iff in Hc. now rewrite Hc.
Qed.

Lemma lstrip_quiet s : all_chars not_space s = true -> Parse.lstrip s = s.
Proof.
  destruct s as [|c tl]; [reflexivity|].
  cbn [all_chars]. intros H. apply andb_true_iff in H as [Hc _].
  unfold not_space in Hc. apply negb_true_iff in Hc.
  cbn [Parse.lstrip]. now rewrite Hc.
Qed.

Lemma rstrip_app x y :
  y <> EmptyString -> Parse.rstrip y = y ->
  Parse.rstrip (x ++ y) = (x ++ y)%string.
Proof.
  intros NE R. induction x as [|c x IH]; [exact R|].
  cbn [append Parse.rstrip]. rewrite IH.
  destruct (x ++ y)%string eqn:E; [|reflexivity].
  exfalso. revert E. now apply append_nonempty_r.
Qed.

Lemma rstrip_app_space x c :
  Parse.is_space c = true ->
  Parse.rstrip (x ++ String c EmptyString) = Parse.rstrip x.
Proof.
  intros S. induction x as [|a x IH].
  - cbn. now rewrite S.
  - cbn [append Parse.rstrip]. now rewrite IH.
Qed.

Lemma rstrip_length s :
  (String.length (Parse.rstrip s) <= String.length s)%nat.
Proof.
  induction s as [|c tl IH]; [reflexivity|].
  cbn [Parse.rstrip]. destruct (Parse.rstrip tl) eqn:E.
  - destruct (Parse.is_space c); simpl; lia.
  - simpl in *. lia.
Qed.

Lemma lstrip_length s :
  (String.length (Parse.lstrip s) <= String.length s)%nat.
Proof.
  induction s as [|c tl IH]; [reflexivity|].
  cbn [Parse.lstrip]. destruct (Parse.is_space c); simpl in *; lia.
Qed.

(** A line without white space around it: its first character is not
    white space, and [rstrip] leaves it alone. *)
Lemma good_line_ends l :
  ParseSpec.good_line l ->
  (exists c tl, l = String c tl /\ Parse.is_space c = false)
  /\ Parse.rstrip l = l.
Proof.
  intros [NE S]. destruct l as [|c tl]; [congruence|].
  unfold Parse.strip in S.
  destruct (Parse.is_space c) eqn:C.
  - exfalso. cbn [Parse.lstrip] in S. rewrite C in S.
    pose proof (rstrip_length (Parse.lstrip tl)).
    pose proof (lstrip_length tl). rewrite S in *. simpl in *. lia.
  - split; [eauto|]. cbn [Parse.lstrip] in S. now rewrite C in S.
Qed.

(** What the parser keeps of a line of the printed text. *)
Lemma strip_line l :
  ParseSpec.good_line l -> Parse.strip (l ++ nl) = l.
Proof.
  intros G. destruct (good_line_ends l G) as [(c & tl & -> & C) R].
  unfold Parse.strip. cbn [append Parse.lstrip]. rewrite C.
  change (String c (tl ++ nl))%string
    with (String c tl ++ nl)%string.
  unfold nl. rewrite rstrip_app_space by reflexivity. exact R.
Qed.

Lemma quiet_good_line s :
  s <> EmptyString -> all_chars not_space s = true -> ParseSpec.good_line s.
Proof.
  intros NE Q. split; [exact NE|]. unfold Parse.strip.
  now rewrite lstrip_quiet, rstrip_quiet.
Qed.

End PrintFacts.

Section ClockFacts.

Import Format PrintSpec NormalizeSpec.

Local Ltac any_char c :=
  destruct c as [[|] [|] [|] [|] [|] [|] [|] [|]]; vm_compute;
  try reflexivity; try discriminate; try tauto.

(** *** Times *)

Lemma clock_fields t :
  0 <= Datetime.hour t < 24 /\ 0 <= Datetime.minute t < 60
  /\ 0 <= Datetime.second t < 60
  /\ 0 <= Datetime.microsecond t / 1000 < 1000.
Proof.
  unfold Datetime.hour, Datetime.minute, Datetime.second,
    Datetime.microsecond.
  change Datetime.day_us with 86400000000.
  change Datetime.hour_us with 3600000000.
  change Datetime.minute_us with 60000000.
  change Datetime.second_us with 1000000.
  Z.to_euclidean_division_equations. lia.
Qed.

Lemma pad2_digits n : 0 <= n < 100 -> all_chars is_digit (pad2 n) = true.
Proof.
  intros H. unfold pad2. cbn [all_chars].
  rewrite !digit_char_digit by (Z.to_euclidean_division_equations; lia).
  reflexivity.
Qed.

Lemma pad3_digits n : 0 <= n < 1000 -> all_chars is_digit (pad3 n) = true.
Proof.
  intros H. unfold pad3. cbn [all_chars].
  rewrite pad2_digits by (Z.to_euclidean_division_equations; lia).
  rewrite digit_char_digit by (Z.to_euclidean_division_equations; lia).
  reflexivity.
Qed.

Lemma all_chars_app p a b :
  all_chars p (a ++ b) = all_chars p a && all_chars p b.
Proof.
  induction a as [|c a IH]; [reflexivity|].
  cbn [append all_chars]. now rewrite IH, andb_assoc.
Qed.

Lemma clock_chars t : all_chars clock_char (clock t) = true.
Proof.
  destruct (clock_fields t) as (H & M & S & U).
  assert (D : forall s, all_chars is_digit s = true ->
                        all_chars clock_char s = true).
  { intros s. apply all_chars_impl. intros c Hc. unfold clock_char.
    now rewrite Hc. }
  unfold clock. rewrite !all_chars_app.
  rewrite (D _ (pad2_digits (Datetime.hour t) ltac:(lia))),
    (D _ (pad2_digits (Datetime.minute t) ltac:(lia))),
    (D _ (pad2_digits (Datetime.second t) ltac:(lia))),
    (D _ (pad3_digits _ U)).
  reflexivity.
Qed.

Lemma clock_char_quiet c :
  clock_char c = true ->
  not_space c = true /\ not_linebreak c = true /\ not_dash c = true.
Proof. any_char c. Qed.

Lemma clock_nonempty t : clock t <> EmptyString.
Proof. discriminate. Qed.

(** [strftime] and [[:-3]] on a time of 1900 or later. *)
Lemma strftime_clock t :
  ParseSpec.midnight_1900 <= t ->
  exists full, strftime t = Ok full /\ drop_last3 full = clock t.
Proof.
  intros H. unfold strftime.
  fold ParseSpec.midnight_1900.
  destruct (t <? ParseSpec.midnight_1900) eqn:E;
    [apply Z.ltb_lt in E; lia|].
  eexists. split; [reflexivity|]. reflexivity.
Qed.

Lemma strftime_before_1900 t :
  t < ParseSpec.midnight_1900 -> strftime t = Raise ValueError.
Proof.
  intros H. unfold strftime. fold ParseSpec.midnight_1900.
  destruct (t <? ParseSpec.midnight_1900) eqn:E; [reflexivity|].
  apply Z.ltb_ge in E. lia.
Qed.

Lemma strftime_raise t e : strftime t = Raise e -> e = ValueError.
Proof.
  unfold strftime. destruct (_ <? _); [|discriminate].
  intros H. now injection H as <-.
Qed.

End ClockFacts.

Section ReadBack.

Import Format PrintSpec NormalizeSpec.

(** *** Reading a printed time *)

Lemma re_split_digit d tl cur :
  0 <= d <= 9 ->
  Parse.re_split_colon_comma (String (digit_char d) tl) cur
  = Parse.re_split_colon_comma tl (cur ++ String (digit_char d) EmptyString).
Proof.
  intros H. cbn [Parse.re_split_colon_comma].
  now rewrite digit_not_colon by now apply digit_char_digit.
Qed.

Lemma re_split_colon tl cur :
  Parse.re_split_colon_comma (String ":" tl) cur
  = cur :: Parse.re_split_colon_comma tl EmptyString.
Proof. reflexivity. Qed.

Lemma re_split_comma tl cur :
  Parse.re_split_colon_comma (String "," tl) cur
  = cur :: Parse.re_split_colon_comma tl EmptyString.
Proof. reflexivity. Qed.

Lemma re_split_clock t :
  Parse.re_split_colon_comma (clock t) EmptyString
  = [pad2 (Datetime.hour t); pad2 (Datetime.minute t);
     pad2 (Datetime.second t); pad3 (Datetime.microsecond t / 1000)].
Proof.
  destruct (clock_fields t) as (H & M & S & U).
  unfold clock, pad3, pad2. cbn [append].
  repeat first
    [ rewrite re_split_colon | rewrite re_split_comma
    | rewrite re_split_digit by (Z.to_euclidean_division_equations; lia) ].
  reflexivity.
Qed.

Variable py_int : string -> option Z.
Hypothesis py_int_decimal : reads_decimal py_int.

(** The time that was printed is the time that is read, when it is a time
    of 1900-01-01 with whole milliseconds. *)
Lemma parse_time_clock line t :
  ParseSpec.on_1900 t -> Parse.parse_time py_int line (clock t) = Ok t.
Proof.
  intros [R W]. destruct (clock_fields t) as (H & M & S & U).
  unfold Parse.parse_time. rewrite re_split_clock. cbn [map_m].
  unfold Parse.int_or_ValueError.
  rewrite (py_int_decimal _ _ (pad2_read (Datetime.hour t) ltac:(lia))),
    (py_int_decimal _ _ (pad2_read (Datetime.minute t) ltac:(lia))),
    (py_int_decimal _ _ (pad2_read (Datetime.second t) ltac:(lia))),
    (py_int_decimal _ _ (pad3_read _ U)).
  cbn [Py.bind].
  rewrite make_1900_in_range by lia.
  pose proof (u_time_of_day t) as E. unfold _u in E.
  assert (F : Datetime.microsecond t / 1000 * 1000 = Datetime.microsecond t).
  { unfold Datetime.microsecond. change Datetime.second_us with 1000000.
    Z.to_euclidean_division_equations. lia. }
  rewrite F. revert R E. unfold ParseSpec.midnight_1900.
  generalize (Datetime.hour t) (Datetime.minute t) (Datetime.second t)
    (Datetime.microsecond t).
  change Datetime.ordinal_1900_01_01 with 693596.
  change Datetime.day_us with 86400000000.
  change Datetime.hour_us with 3600000000.
  change Datetime.minute_us with 60000000.
  change Datetime.second_us with 1000000.
  intros h m s us R E. apply f_equal.
  assert (T : t mod 86400000000 = t - 693595 * 86400000000)
    by (symmetry; apply Z.mod_unique with 693595; lia).
  lia.
Qed.

(** *** The period line *)

Lemma not_dash_neq c : not_dash c = true -> "-"%char <> c.
Proof.
  intros H <-. discriminate H.
Qed.

Lemma length_append_s (a b : string) :
  String.length (a ++ b) = (String.length a + String.length b)%nat.
Proof. induction a as [|c a IH]; simpl; [reflexivity | now rewrite IH]. Qed.

Lemma split_loop_quiet a : forall n rest cur,
  all_chars not_dash a = true ->
  Parse.split_loop (String.length a + n) "-->" (a ++ rest) cur
  = Parse.split_loop n "-->" rest (cur ++ a).
Proof.
  induction a as [|c a IH]; intros n rest cur Q.
  - cbn [append String.length Nat.add]. now rewrite append_empty_r.
  - cbn [all_chars] in Q. apply andb_true_iff in Q as [Qc Qa].
    cbn [append String.length Nat.add Parse.split_loop String.prefix].
    destruct (ascii_dec "-" c) as [E|_];
      [exfalso; exact (not_dash_neq c Qc E)|].
    rewrite IH by exact Qa. now rewrite append_assoc_s.
Qed.

Lemma split_loop_last r n cur :
  all_chars not_dash r = true ->
  Parse.split_loop (String.length r + n) "-->" r cur = [(cur ++ r)%string].
Proof.
  intros Q. pose proof (split_loop_quiet r n EmptyString cur Q) as H.
  rewrite append_empty_r in H. rewrite H. destruct n; reflexivity.
Qed.

Lemma split_arrow a r :
  all_chars not_dash a = true -> all_chars not_dash r = true ->
  Parse.split (a ++ "-->" ++ r) "-->" = [a; r].
Proof.
  intros Qa Qr. unfold Parse.split.
  rewrite length_append_s.
  replace (S (String.length a + String.length ("-->" ++ r)))
    with (String.length a + S (String.length r + 3))%nat
    by (rewrite length_append_s; simpl; lia).
  rewrite (split_loop_quiet a _ _ _ Qa).
  cbn [append Parse.split_loop String.prefix].
  replace (String.prefix "" r) with true by (now destruct r).
  destruct (ascii_dec "-" "-") as [_|N]; [|congruence].
  destruct (ascii_dec ">" ">") as [_|N]; [|congruence].
  cbn [String.length Nat.sub String.substring].
  rewrite Nat.sub_0_r, substring_all. f_equal.
  now rewrite split_loop_last.
Qed.

Lemma clock_quiet t :
  all_chars not_space (clock t) = true
  /\ all_chars not_linebreak (clock t) = true
  /\ all_chars not_dash (clock t) = true.
Proof.
  pose proof (clock_chars t) as C. repeat split;
    (eapply all_chars_impl; [|exact C]); intros c Hc;
    apply clock_char_quiet in Hc; tauto.
Qed.

Lemma strip_quiet s : all_chars not_space s = true -> Parse.strip s = s.
Proof.
  intros Q. unfold Parse.strip. now rewrite lstrip_quiet, rstrip_quiet.
Qed.

Lemma lstrip_clock t x :
  Parse.lstrip (clock t ++ x) = (clock t ++ x)%string.
Proof.
  unfold clock, pad2 at 1. cbn [append Parse.lstrip].
  rewrite digit_not_space; [reflexivity|].
  apply digit_char_digit.
  destruct (clock_fields t) as (H & _).
  Z.to_euclidean_division_equations. lia.
Qed.

(** The two sides of a printed period line. *)
Lemma period_sides f :
  map Parse.strip (Parse.split (period f) "-->")
  = [clock (starttime f); clock (endtime f)].
Proof.
  destruct (clock_quiet (starttime f)) as (Ss & _ & Ds).
  destruct (clock_quiet (endtime f)) as (Se & _ & De).
  unfold period.
  replace (clock (starttime f) ++ " --> " ++ clock (endtime f))%string
    with ((clock (starttime f) ++ " ") ++ "-->"
          ++ (" " ++ clock (endtime f)))%string
    by (now rewrite append_assoc_s).
  rewrite split_arrow.
  - cbn [map]. f_equal; [|f_equal].
    + unfold Parse.strip. rewrite lstrip_clock.
      rewrite rstrip_app_space by reflexivity. now apply rstrip_quiet.
    + unfold Parse.strip.
      change (Parse.lstrip (" " ++ clock (endtime f)))
        with (Parse.lstrip (clock (endtime f))).
      now rewrite lstrip_quiet, rstrip_quiet.
  - rewrite all_chars_app, Ds. reflexivity.
  - cbn [append all_chars]. rewrite De. reflexivity.
Qed.

Lemma period_good f : ParseSpec.good_line (period f).
Proof.
  destruct (clock_quiet (starttime f)) as (Ss & _ & _).
  destruct (clock_quiet (endtime f)) as (Se & _ & _).
  split; [discriminate|]. unfold Parse.strip, period.
  rewrite lstrip_clock.
  replace (clock (starttime f) ++ " --> " ++ clock (endtime f))%string
    with ((clock (starttime f) ++ " --> ") ++ clock (endtime f))%string
    by (now rewrite append_assoc_s).
  apply rstrip_app; [discriminate | now apply rstrip_quiet].
Qed.

End ReadBack.

Section Lines.

Import Format PrintSpec NormalizeSpec.

Local Ltac any_char c :=
  destruct c as [[|] [|] [|] [|] [|] [|] [|] [|]]; vm_compute;
  try reflexivity; try discriminate; try tauto.

(** *** The printed text *)

Lemma unicode_since_1900 f :
  since_1900 f -> FragmentOps.unicode f = Ok (fragment_text f).
Proof.
  intros [S E]. unfold FragmentOps.unicode.
  destruct (strftime_clock _ S) as (fs & -> & Hs).
  destruct (strftime_clock _ E) as (fe & -> & He).
  cbn [Py.bind]. rewrite Hs, He. reflexivity.
Qed.

Lemma unicode_raise f e :
  FragmentOps.unicode f = Raise e -> e = ValueError.
Proof.
  unfold FragmentOps.unicode.
  destruct (strftime (starttime f)) eqn:S.
  - cbn [Py.bind]. destruct (strftime (endtime f)) eqn:E; [discriminate|].
    cbn [Py.bind]. intros H. injection H as <-.
    eapply strftime_raise; eassumption.
  - cbn [Py.bind]. intros H. injection H as <-.
    eapply strftime_raise; eassumption.
Qed.

Lemma unicode_before_1900 f :
  ~ since_1900 f -> FragmentOps.unicode f = Raise ValueError.
Proof.
  intros N. destruct (FragmentOps.unicode f) as [u|e] eqn:U.
  - exfalso. apply N. unfold FragmentOps.unicode in U.
    apply bind_ok in U as (s & Hs & U). apply bind_ok in U as (e & He & _).
    split.
    + destruct (Z_lt_le_dec (starttime f) ParseSpec.midnight_1900) as [L|L];
        [|exact L].
      rewrite strftime_before_1900 in Hs by exact L. discriminate.
    + destruct (Z_lt_le_dec (endtime f) ParseSpec.midnight_1900) as [L|L];
        [|exact L].
      rewrite strftime_before_1900 in He by exact L. discriminate.
  - f_equal. eapply unicode_raise; eassumption.
Qed.

Lemma stream_unicode_loop s : forall acc,
  Forall since_1900 s ->
  for_each
    (fun (output : string) fragment =>
       u <- FragmentOps.unicode fragment ;;
       Ok (output ++ (u ++ nl ++ nl))%string)
    s acc
  = Ok (acc ++ stream_text s)%string.
Proof.
  induction s as [|f tl IH]; intros acc F.
  - cbn. now rewrite append_empty_r.
  - inversion F as [|? ? Hf Ht]; subst. cbn [for_each stream_text].
    rewrite (unicode_since_1900 f Hf). cbn [Py.bind]. rewrite (IH _ Ht).
    f_equal. rewrite !append_assoc_s. reflexivity.
Qed.

Lemma stream_unicode_raise s : forall acc,
  Exists (fun f => ~ since_1900 f) s ->
  for_each
    (fun (output : string) fragment =>
       u <- FragmentOps.unicode fragment ;;
       Ok (output ++ (u ++ nl ++ nl))%string)
    s acc
  = Raise ValueError.
Proof.
  induction s as [|f tl IH]; intros acc X; [inversion X|].
  cbn [for_each].
  destruct (FragmentOps.unicode f) as [u|e] eqn:U.
  - cbn [Py.bind]. apply IH. inversion X as [? ? N|]; subst; [|assumption].
    rewrite (unicode_before_1900 f N) in U. discriminate.
  - cbn [Py.bind]. f_equal. eapply unicode_raise; eassumption.
Qed.

(** *** Its lines *)

Lemma splitlines_line a : forall rest cur,
  all_chars not_linebreak a = true ->
  splitlines (a ++ nl ++ rest) cur
  = (cur ++ a ++ nl)%string :: splitlines rest EmptyString.
Proof.
  induction a as [|c a IH]; intros rest cur Q.
  - reflexivity.
  - cbn [all_chars] in Q. apply andb_true_iff in Q as [Qc Qa].
    cbn [append splitlines].
    unfold not_linebreak in Qc. apply negb_true_iff in Qc. rewrite Qc.
    rewrite IH by exact Qa. now rewrite append_assoc_s.
Qed.

Lemma splitlines_text tls : forall rest,
  tls <> [] ->
  Forall (fun l => all_chars not_linebreak l = true) tls ->
  splitlines (String.concat nl tls ++ nl ++ rest) EmptyString
  = map (fun l => (l ++ nl)%string) tls
    ++ splitlines rest EmptyString.
Proof.
  induction tls as [|t tl IH]; intros rest NE Q; [congruence|].
  inversion Q as [|? ? Qt Qtl]; subst.
  destruct tl as [|t2 tl].
  - cbn [String.concat map app]. now rewrite splitlines_line.
  - rewrite concat_cons by discriminate.
    rewrite !append_assoc_s. rewrite splitlines_line by exact Qt.
    rewrite IH by (discriminate || assumption). reflexivity.
Qed.

Lemma digit_chars_quiet s :
  all_chars is_digit s = true ->
  all_chars not_space s = true /\ all_chars not_linebreak s = true.
Proof.
  intros D. split; (eapply all_chars_impl; [|exact D]); intros c Hc.
  - unfold not_space. now rewrite digit_not_space.
  - now apply digit_not_linebreak.
Qed.

Lemma percent_d_quiet z :
  percent_d z <> EmptyString
  /\ all_chars not_space (percent_d z) = true
  /\ all_chars not_linebreak (percent_d z) = true.
Proof.
  destruct (percent_d_shape z) as (body & NE & D & -> & _).
  destruct (digit_chars_quiet body D) as [Sp Lb].
  destruct (z <? 0).
  - split; [discriminate|]. cbn [all_chars]. rewrite Sp, Lb. now split.
  - now repeat split.
Qed.

Lemma period_no_linebreak f : all_chars not_linebreak (period f) = true.
Proof.
  destruct (clock_quiet (starttime f)) as (_ & Ls & _).
  destruct (clock_quiet (endtime f)) as (_ & Le & _).
  unfold period. rewrite !all_chars_app, Ls, Le. reflexivity.
Qed.

Lemma splitlines_fragment f rest :
  printable f ->
  splitlines (fragment_text f ++ nl ++ nl ++ rest) EmptyString
  = block_lines f ++ splitlines rest EmptyString.
Proof.
  intros [(_ & _ & NE & _) Q].
  destruct (percent_d_quiet (seqnumber f)) as (_ & _ & Ln).
  unfold fragment_text, block_lines.
  replace (clock (starttime f) ++ " --> " ++ clock (endtime f) ++ nl
           ++ String.concat nl (textlines f))%string
    with (period f ++ nl
          ++ String.concat nl (textlines f))%string
    by (unfold period; now rewrite !append_assoc_s).
  rewrite !append_assoc_s.
  rewrite splitlines_line by exact Ln.
  rewrite splitlines_line by apply period_no_linebreak.
  rewrite splitlines_text by assumption.
  cbn [append app]. do 2 f_equal. rewrite <- app_assoc. f_equal.
Qed.

Lemma splitlines_stream s :
  Forall printable s ->
  splitlines (stream_text s) EmptyString = flat_map block_lines s.
Proof.
  induction 1 as [|f tl Pf _ IH]; [reflexivity|].
  cbn [stream_text flat_map]. rewrite splitlines_fragment by exact Pf.
  now rewrite IH.
Qed.

End Lines.

Section RoundTrip.

Import Format PrintSpec NormalizeSpec.

Variable py_int : string -> option Z.
Hypothesis py_int_decimal : reads_decimal py_int.

(** *** Reading the lines of a printed fragment *)

Lemma parse_line_stage2 st raw :
  Parse.stage st = 2 -> Parse.strip raw <> EmptyString ->
  Parse.parse_line py_int st raw
  = Ok (Parse.mkState 3 false (Parse.fragmentlist st) (Parse.v_seqnumber st)
          (Parse.v_starttime st) (Parse.v_endtime st)
          (Some [Parse.strip raw])).
Proof.
  intros S B. unfold Parse.parse_line.
  apply String.eqb_neq in B. rewrite B.
  cbn [Parse.stage Parse.fragmentlist Parse.v_seqnumber Parse.v_starttime
       Parse.v_endtime Parse.v_textlines Parse.ignoring].
  rewrite S. reflexivity.
Qed.

Lemma parse_line_later st raw acc :
  3 <= Parse.stage st -> Parse.strip raw <> EmptyString ->
  Parse.v_textlines st = Some acc ->
  Parse.parse_line py_int st raw
  = Ok (Parse.mkState (Parse.stage st + 1) false (Parse.fragmentlist st)
          (Parse.v_seqnumber st) (Parse.v_starttime st) (Parse.v_endtime st)
          (Some (acc ++ [Parse.strip raw]))).
Proof.
  intros S B T. unfold Parse.parse_line.
  apply String.eqb_neq in B. rewrite B.
  cbn [Parse.stage Parse.fragmentlist Parse.v_seqnumber Parse.v_starttime
       Parse.v_endtime Parse.v_textlines Parse.ignoring].
  destruct (0 =? Parse.stage st) eqn:E0; [apply Z.eqb_eq in E0; lia|].
  destruct (1 =? Parse.stage st) eqn:E1; [apply Z.eqb_eq in E1; lia|].
  destruct (2 =? Parse.stage st) eqn:E2; [apply Z.eqb_eq in E2; lia|].
  rewrite T. reflexivity.
Qed.

Lemma parse_text_lines tls : forall st acc,
  3 <= Parse.stage st -> Parse.ignoring st = false ->
  Parse.v_textlines st = Some acc ->
  Forall ParseSpec.good_line tls ->
  for_each (Parse.parse_line py_int)
    (map (fun l => (l ++ nl)%string) tls) st
  = Ok (Parse.mkState (Parse.stage st + Z.of_nat (List.length tls)) false
          (Parse.fragmentlist st) (Parse.v_seqnumber st)
          (Parse.v_starttime st) (Parse.v_endtime st) (Some (acc ++ tls))).
Proof.
  induction tls as [|t tl IH]; intros st acc S I T G.
  - cbn. destruct st. cbn in *. subst. rewrite app_nil_r, Z.add_0_r.
    reflexivity.
  - inversion G as [|? ? Gt Gtl]; subst. cbn [map for_each].
    rewrite (parse_line_later st _ acc S) by
      (rewrite ?strip_line by exact Gt; (apply Gt || exact T)).
    cbn [Py.bind]. rewrite strip_line by exact Gt.
    rewrite (IH _ (acc ++ [t])); cbn; try reflexivity; try assumption;
      try lia.
    rewrite <- app_assoc. do 2 f_equal. lia.
Qed.

(** The lines of a printed fragment, read where no block is open, add the
    fragment to the list and leave no block open. *)
Lemma parse_block f st :
  Parse.ignoring st = true -> Parse.stage st = 0 -> printable f ->
  for_each (Parse.parse_line py_int) (block_lines f) st
  = Ok (Parse.mkState 0 true (Parse.fragmentlist st ++ [f])
          (Some (seqnumber f)) (Some (starttime f)) (Some (endtime f))
          (Some (textlines f))).
Proof.
  intros I S [(Hs & He & NE & G) Q].
  destruct (percent_d_quiet (seqnumber f)) as (Nn & Sn & _).
  pose proof (quiet_good_line _ Nn Sn) as Gn.
  pose proof (period_good f) as Gp.
  unfold block_lines. cbn [for_each].
  rewrite (parse_line_stage0 py_int st _ (seqnumber f) S)
    by (rewrite strip_line by exact Gn;
        first [apply Gn | apply py_int_decimal, percent_d_read]).
  cbn [Py.bind].
  rewrite parse_line_stage1 by
    (try reflexivity; rewrite strip_line by exact Gp; apply Gp).
  rewrite strip_line by exact Gp. rewrite period_sides.
  rewrite !parse_time_clock by assumption.
  cbn [Py.bind Parse.stage Parse.ignoring Parse.fragmentlist
       Parse.v_seqnumber Parse.v_starttime Parse.v_endtime
       Parse.v_textlines Z.add Pos.add].
  rewrite for_each_app.
  destruct (textlines f) as [|t tl] eqn:T; [congruence|].
  inversion G as [|? ? Gt Gtl]; subst.
  cbn [map for_each].
  rewrite parse_line_stage2 by
    (try reflexivity; rewrite strip_line by exact Gt; apply Gt).
  cbn [Py.bind]. rewrite strip_line by exact Gt.
  rewrite (parse_text_lines tl _ [t])
    by (cbn; (lia || reflexivity || assumption)).
  cbn [Py.bind for_each Parse.stage Parse.ignoring Parse.fragmentlist
       Parse.v_seqnumber Parse.v_starttime Parse.v_endtime
       Parse.v_textlines].
  rewrite parse_line_blank by reflexivity.
  cbn [Parse.ignoring negb Parse.current_fragment Parse.local Py.bind
       Parse.v_seqnumber Parse.v_starttime Parse.v_endtime
       Parse.v_textlines Parse.fragmentlist app].
  destruct f as [n s e tls]. cbn in T. subst tls. reflexivity.
Qed.

Lemma parse_blocks s : forall st,
  Parse.ignoring st = true -> Parse.stage st = 0 -> Forall printable s ->
  exists st',
    for_each (Parse.parse_line py_int) (flat_map block_lines s) st = Ok st'
    /\ Parse.ignoring st' = true /\ Parse.stage st' = 0
    /\ Parse.fragmentlist st' = Parse.fragmentlist st ++ s.
Proof.
  induction s as [|f tl IH]; intros st I S P.
  - exists st. cbn. now rewrite app_nil_r.
  - inversion P as [|? ? Pf Pt]; subst. cbn [flat_map].
    rewrite for_each_app, (parse_block f st I S Pf). cbn [Py.bind].
    destruct (IH (Parse.mkState 0 true (Parse.fragmentlist st ++ [f])
                    (Some (seqnumber f)) (Some (starttime f))
                    (Some (endtime f)) (Some (textlines f)))
                eq_refl eq_refl Pt) as (st' & F & I' & S' & L).
    exists st'. split; [exact F|]. split; [exact I'|]. split; [exact S'|].
    rewrite L. cbn [Parse.fragmentlist]. now rewrite <- app_assoc.
Qed.

(** X28.  [SubtitleStream.__unicode__] raises [ValueError] when a time of
    some fragment is before 1900.  Otherwise it returns, for each fragment
    in turn, the sequence number in decimal, the two times as
    [HH:MM:SS,mmm] with the microseconds cut, not rounded, to milliseconds,
    and the text lines, each on a line of its own, followed by a blank
    line. *)
Theorem stream_unicode_1900 (s : SubtitleStream) :
  (Exists (fun f => ~ since_1900 f) s ->
   StreamOps.unicode s = Raise ValueError)
  /\ (Forall since_1900 s -> StreamOps.unicode s = Ok (stream_text s)).
Proof.
  split.
  - apply stream_unicode_raise.
  - intros F. unfold StreamOps.unicode.
    now rewrite stream_unicode_loop.
Qed.

(** X29.  A shift by an integer that moves the start or the end of some
    fragment before 1900 gives, when it returns, a stream that cannot be
    printed: [__unicode__] raises [ValueError]. *)
Theorem shift_before_1900 (s s' : SubtitleStream) (a : Z) :
  Stream.shift s (PInt a) = Ok s' ->
  Exists (fun f => starttime f + a < ParseSpec.midnight_1900
                   \/ endtime f + a < ParseSpec.midnight_1900) s ->
  StreamOps.unicode s' = Raise ValueError.
Proof.
  intros H X. apply stream_unicode_raise.
  assert (P : Forall2 (fun x y => y = moved x a) s s').
  { revert H. unfold Stream.shift. apply map_m_pointwise.
    intros x y Hxy. now apply fragment_shift_int in Hxy as [-> _]. }
  clear H. induction P as [|x y l l' -> _ IH]; [inversion X|].
  inversion X as [? ? Hx|? ? Hl]; subst.
  - left. unfold since_1900, moved. cbn [starttime endtime]. lia.
  - right. now apply IH.
Qed.

(** X30.  Printing and reading back: for a stream of fragments as the parser
    builds them, with no line break inside a text line, [__unicode__]
    returns a text, and [_parse] on the lines of that text returns the
    fragments of the stream. *)
Theorem parse_unicode (s : SubtitleStream) :
  Forall printable s ->
  exists text,
    StreamOps.unicode s = Ok text
    /\ Parse._parse py_int (splitlines text EmptyString) = Ok s.
Proof.
  intros P. exists (stream_text s). split.
  - unfold StreamOps.unicode. rewrite stream_unicode_loop; [reflexivity|].
    eapply Forall_impl; [|exact P]. intros f [(Hs & He & _) _].
    split; [apply Hs | apply He].
  - rewrite splitlines_stream by exact P. unfold Parse._parse.
    destruct (parse_blocks s Parse.initial eq_refl eq_refl P)
      as (st & -> & I & _ & L).
    cbn [Py.bind]. rewrite I. cbn [negb]. now rewrite L.
Qed.

End RoundTrip.

Lemma two_blocks_printable : Forall PrintSpec.printable SampleSrt.two_blocks.
Proof.
  repeat constructor; try (vm_compute; congruence); vm_compute; lia.
Qed.

Lemma stream_unicode_1900_witness :
  StreamOps.unicode SampleSrt.two_blocks
  = Ok (PrintSpec.stream_text SampleSrt.two_blocks).
Proof.
  apply (proj2 (stream_unicode_1900 SampleSrt.two_blocks)).
  repeat constructor; vm_compute; discriminate.
Defined.

Lemma shift_before_1900_witness :
  exists s',
    Stream.shift SampleSrt.two_blocks (PInt (- 2000000)) = Ok s'
    /\ StreamOps.unicode s' = Raise ValueError.
Proof.
  eexists. split; [vm_compute; reflexivity|].
  apply (shift_before_1900 SampleSrt.two_blocks _ (- 2000000)).
  - vm_compute. reflexivity.
  - left. left. vm_compute. reflexivity.
Defined.

Lemma parse_unicode_witness :
  exists text,
    StreamOps.unicode SampleSrt.two_blocks = Ok text
    /\ Parse._parse Parse.decimal_int (Format.splitlines text EmptyString)
       = Ok SampleSrt.two_blocks.
Proof.
  apply (parse_unicode Parse.decimal_int).
  - intros s z H. exact H.
  - exact two_blocks_printable.
Defined.
